(** * LightTheGains: the portfolio mood light, embedded and verified

    A shallow embedding of [light_the_gains.py]: symbol normalisation, the
    price fetcher with its fallback chain, the portfolio table computed by
    [compute_portfolio], the summary computed by [print_summary], the loader
    [load_portfolio], the bulb driver [set_bulb_color], and the loop of
    [main] with the start-up checks before it.

    Numbers.  A Python/numpy [float] is modelled by [float] below: an exact
    rational, or one of the IEEE special values NaN, +inf, -inf.  Finite
    arithmetic is exact (no binary rounding error, no overflow, no signed
    zero); the special values follow IEEE 754.  pandas' missing value is
    NaN, Python's [None] is [None] of an [option].

    Effects.  Exceptions are explicit ([result]); the market-data provider,
    the file system and the numeric parser of pandas are parameters; the
    bulb is a small state machine whose calls are recorded.  Console output
    is not modelled, except for the bulb messages and for what printing the
    holdings can raise.  The provider answers as a function of the symbol:
    asked twice in one cycle, it answers alike.  The numeric parser reads
    finite numbers: a string in which pandas reads an infinity is outside
    it, and the properties of a cycle are stated for quantities given as
    JSON numbers.

    Strings are ASCII: [strip], [upper], [lower] and [replace] act on the
    characters below 128 as Python does.  Line numbers are those of
    [light_the_gains.py]. *)

From Stdlib Require Import QArith Ascii.
From Stdlib Require String.
From stdpp Require Import gmap strings list fin_maps.

Local Open Scope Q_scope.

(** ** Floats *)

Inductive float : Type :=
  | Fin (q : Q)
  | NaN
  | PInf
  | NInf.

(** Exact rational operations, kept in lowest terms so that equal numbers
    are equal terms. *)
Definition qadd (a b : Q) : Q := Qred (a + b).
Definition qsub (a b : Q) : Q := Qred (a - b).
Definition qmul (a b : Q) : Q := Qred (a * b).
Definition qdiv (a b : Q) : Q := Qred (a / b).
Definition qzero (a : Q) : bool := Qeq_bool a 0.

(** The sign of a float that is not NaN. *)
Definition fsign (x : float) : comparison :=
  match x with
  | Fin q => q ?= 0
  | PInf => Gt
  | NInf => Lt
  | NaN => Eq
  end.

Definition finf (s : comparison) : float :=
  match s with Gt => PInf | Lt => NInf | Eq => NaN end.

Definition sign_mul (s t : comparison) : comparison :=
  match s, t with
  | Eq, _ | _, Eq => Eq
  | Gt, Gt | Lt, Lt => Gt
  | _, _ => Lt
  end.

Definition fopp (x : float) : float :=
  match x with
  | Fin q => Fin (Qred (- q))
  | NaN => NaN
  | PInf => NInf
  | NInf => PInf
  end.

Definition fadd (x y : float) : float :=
  match x, y with
  | NaN, _ | _, NaN => NaN
  | Fin a, Fin b => Fin (qadd a b)
  | PInf, NInf | NInf, PInf => NaN
  | PInf, _ | _, PInf => PInf
  | NInf, _ | _, NInf => NInf
  end.

Definition fsub (x y : float) : float :=
  match x, y with
  | NaN, _ | _, NaN => NaN
  | Fin a, Fin b => Fin (qsub a b)
  | PInf, PInf | NInf, NInf => NaN
  | PInf, _ | _, NInf => PInf
  | NInf, _ | _, PInf => NInf
  end.

Definition fmul (x y : float) : float :=
  match x, y with
  | NaN, _ | _, NaN => NaN
  | Fin a, Fin b => Fin (qmul a b)
  | _, _ => finf (sign_mul (fsign x) (fsign y))
  end.

(** numpy's [float64] division: a zero divisor gives NaN or an infinity
    (with a warning), never an exception. *)
Definition fdiv (x y : float) : float :=
  match x, y with
  | NaN, _ | _, NaN => NaN
  | Fin a, Fin b =>
      if qzero b then finf (a ?= 0) else Fin (qdiv a b)
  | Fin _, _ => Fin 0
  | _, Fin b => if qzero b then x else finf (sign_mul (fsign x) (b ?= 0))
  | _, _ => NaN
  end.

(** [x > y] and [x < y] on floats: false as soon as one side is NaN. *)
Definition fgt (x y : float) : bool :=
  match x, y with
  | NaN, _ | _, NaN => false
  | Fin a, Fin b => match a ?= b with Gt => true | _ => false end
  | PInf, PInf => false
  | PInf, _ => true
  | _, NInf => match x with NInf => false | _ => true end
  | _, _ => false
  end.

Definition flt (x y : float) : bool := fgt y x.

(** [x == 0] *)
Definition feq0 (x : float) : bool :=
  match x with Fin q => qzero q | _ => false end.

(** [bool(x)]: every float but zero is true, NaN and the infinities too. *)
Definition truthy (x : float) : bool := negb (feq0 x).

(** [pd.isna] *)
Definition isna (x : float) : bool :=
  match x with NaN => true | _ => false end.

(** Rounding to the nearest integer, ties to the even one ([rint]). *)
Definition rint (q : Q) : Z :=
  let n := Qnum q in
  let d := Zpos (Qden q) in
  let fl := (n / d)%Z in
  match (2 * (n mod d) ?= d)%Z with
  | Lt => fl
  | Gt => (fl + 1)%Z
  | Eq => if Z.even fl then fl else (fl + 1)%Z
  end.

(** [round(q, 2)] and [.round(2)]: two decimals, ties to even. *)
Definition round2 (q : Q) : Q := Qred (inject_Z (rint (q * 100)) / 100).

Definition fround2 (x : float) : float :=
  match x with Fin q => Fin (round2 q) | _ => x end.

(** [Series.sum()] with pandas' default [skipna=True]: missing values are
    left out, the empty sum is 0. *)
Definition fsum (l : list float) : float :=
  foldl fadd (Fin 0) (filter (λ x, isna x = false) l).

(** Decimal literals, for readable examples: [dec n k] is n / 10^k. *)
Definition dec (n : Z) (k : nat) : Q := Qred (inject_Z n / inject_Z (10 ^ Z.of_nat k)).

(** ** Exceptions *)

(** The exceptions ([Exception] subclasses) the program can meet.
    [ExternalError] stands for whatever a library call raises: a network
    error, an unknown symbol, a malformed response, a device time-out.
    The three [ValueError _] are the three [raise ValueError(...)] of
    [load_portfolio], told apart by their message in the source: the file
    is not a .json file, the file could not be read or parsed (the spec's
    ParseError), a required key is missing (the spec's FormatError).
    [TypeError] is what formatting [None] as a number raises,
    [OverflowError] and [ValueError_IntOfNaN] what [int] raises on an
    infinity and on NaN. *)
Inductive exn : Type :=
  | AttributeError
  | ZeroDivisionError
  | TypeError
  | OverflowError
  | ValueError_IntOfNaN
  | ExternalError (msg : string)
  | ValueError_OnlyJson
  | ValueError_FailedToRead (cause : exn)
  | ValueError_MustContainKeys.

Inductive result (A : Type) : Type :=
  | Ok (a : A)
  | Raise (e : exn).
Arguments Ok {A} a.
Arguments Raise {A} e.

#[global] Instance result_ret : MRet result := λ A a, Ok a.
#[global] Instance result_bind : MBind result := λ A B f m,
  match m with Ok a => f a | Raise e => Raise e end.
#[global] Instance result_fmap : FMap result := λ A B f m,
  match m with Ok a => Ok (f a) | Raise e => Raise e end.

(** [try: body except Exception as e: handler(e)] *)
Definition try_except {A} (body : result A) (handler : exn → result A) : result A :=
  match body with Ok a => Ok a | Raise e => handler e end.

(** Python's [float] division raises on a zero divisor. *)
Definition truediv (x y : float) : result float :=
  if feq0 y then Raise ZeroDivisionError else Ok (fdiv x y).

(** ** Strings (ASCII) *)

Module Str.

Definition code (c : ascii) : N := N_of_ascii c.

Definition is_ascii (c : ascii) : Prop := (code c < 128)%N.

(** [c.isspace()] on ASCII: tab, newline, vertical tab, form feed,
    carriage return, the four separators 0x1c-0x1f, and space. *)
Definition isspace (c : ascii) : bool :=
  let n := code c in
  ((9 <=? n) && (n <=? 13) || (28 <=? n) && (n <=? 32))%N.

Definition upper_char (c : ascii) : ascii :=
  let n := code c in
  if ((97 <=? n) && (n <=? 122))%N then ascii_of_N (n - 32) else c.

Definition lower_char (c : ascii) : ascii :=
  let n := code c in
  if ((65 <=? n) && (n <=? 90))%N then ascii_of_N (n + 32) else c.

Fixpoint lstrip (s : list ascii) : list ascii :=
  match s with
  | c :: s' => if isspace c then lstrip s' else s
  | [] => []
  end.

Definition rstrip (s : list ascii) : list ascii := reverse (lstrip (reverse s)).

Definition strip (s : list ascii) : list ascii := rstrip (lstrip s).

Definition upper (s : list ascii) : list ascii := upper_char <$> s.
Definition lower (s : list ascii) : list ascii := lower_char <$> s.

Definition endswith (s suf : list ascii) : bool := bool_decide (suf `suffix_of` s).

Fixpoint startswith (s pre : list ascii) : bool :=
  match pre, s with
  | [], _ => true
  | p :: pre', c :: s' => bool_decide (p = c) && startswith s' pre'
  | _ :: _, [] => false
  end.

(** [s.replace(old, new)] for a non-empty [old]: the occurrences of
    [old] are found from the left and do not overlap.  [skip] counts the
    characters of an occurrence still to be passed over. *)
Fixpoint replace_from (skip : nat) (old new s : list ascii) : list ascii :=
  match s with
  | [] => []
  | c :: s' =>
      match skip with
      | S k => replace_from k old new s'
      | O =>
          if startswith s old
          then new ++ replace_from (length old - 1) old new s'
          else c :: replace_from 0 old new s'
      end
  end.

Definition replace (s old new : list ascii) : list ascii := replace_from 0 old new s.

Definition chars (s : string) : list ascii := String.list_ascii_of_string s.
Definition str (l : list ascii) : string := String.string_of_list_ascii l.

End Str.

(** ** Symbol normalisation *)

Definition AUTO_APPEND_NS : bool := true.

Definition normalize_chars (symbol : list ascii) : list ascii :=
  let s := Str.upper (Str.strip symbol) in
  let s := if AUTO_APPEND_NS && negb (Str.endswith s (Str.chars ".NS"))
           then s ++ Str.chars ".NS" else s in
  Str.replace s (Str.chars "&") (Str.chars "%26").

Definition normalize_symbol (symbol : string) : string :=
  Str.str (normalize_chars (Str.chars symbol)).

(** ** The price fetcher *)

(** The market-data provider (yfinance), as seen by the program: the fast
    quote ([ticker.fast_info], read for "last_price" and "previous_close"),
    the daily closes of the last two days ([ticker.history(period="2d")],
    oldest first), and the detailed quote's "previousClose"
    ([ticker.info]).  Each call may raise. *)
Record PriceSource : Type := {
  fast_info : string → result (option float * option float);
  history_close : string → result (list float);
  info_previousClose : string → result (option float);
}.

(** Truth value and [== 0] of a Python value that is a float or [None]. *)
Definition otruthy (x : option float) : bool :=
  match x with Some v => truthy v | None => false end.
Definition oeq0 (x : option float) : bool :=
  match x with Some v => feq0 v | None => false end.

(** Lines 116-124 of the source: the one-day return of a quote, and the
    pair the fetcher returns. *)
Definition one_day_return (last_price prev_close : option float) : result (option float) :=
  match last_price, prev_close with
  | Some l, Some p =>
      if truthy l && truthy p
      then q ← truediv (fsub l p) p; mret (Some (fmul q (Fin 100)))
      else mret None
  | _, _ => mret None
  end.

Definition quote_result (last_price prev_close : option float)
    : result (option float * option float) :=
  daily_ret ← one_day_return last_price prev_close;
  mret (if otruthy last_price then last_price else None,
        if otruthy daily_ret then fround2 <$> daily_ret else None).

Section Fetch.
Context (src : PriceSource).

(** Lines 100-114: the quote after the two fallbacks. *)
Definition resolve_quote (symbol : string) : result (option float * option float) :=
  '(last_price, prev_close) ← fast_info src symbol;
  '(last_price, prev_close) ←
    (if negb (otruthy prev_close) || negb (otruthy last_price) || oeq0 prev_close
     then
       hist ← history_close src symbol;
       mret (match reverse hist with
             | l :: p :: _ => (Some l, Some p)
             | [l] => (Some l, prev_close)
             | [] => (last_price, prev_close)
             end)
     else mret (last_price, prev_close));
  prev_close ←
    (if negb (otruthy prev_close) || oeq0 prev_close
     then info_previousClose src symbol
     else mret prev_close);
  mret (last_price, prev_close).

Definition fetch_yfinance_price (symbol : string) : result (option float * option float) :=
  try_except
    ('(last_price, prev_close) ← resolve_quote symbol;
     quote_result last_price prev_close)
    (λ e, mret (None, None)).

(** The loop of [fetch_live_prices], over the two dicts it fills. *)
Fixpoint fetch_loop (symbols : list string) (prices returns : gmap string (option float))
    : result (gmap string (option float) * gmap string (option float)) :=
  match symbols with
  | [] => mret (prices, returns)
  | sym :: rest =>
      '(price, daily_ret) ← fetch_yfinance_price sym;
      fetch_loop rest (<[sym := price]> prices) (<[sym := daily_ret]> returns)
  end.

Definition fetch_live_prices (symbols : list string)
    : result (gmap string (option float) * gmap string (option float)) :=
  fetch_loop symbols ∅ ∅.

End Fetch.

(** ** The holdings table *)

(** A value of the parsed JSON file: a number, a string, or null.  A key
    that a record lacks reads as null too (pandas fills it with NaN).
    Booleans, arrays and nested objects are left out. *)
Inductive cell : Type :=
  | CNum (q : Q)
  | CStr (s : string)
  | CNull.

(** The frame [pd.DataFrame(data)] built from the parsed file. *)
Record DataFrame : Type := {
  columns : gset string;
  records : list (gmap string cell);
}.

Definition at_col (k : string) (r : gmap string cell) : cell := default CNull (r !! k).

(** [pd.DataFrame] of a list of JSON objects: one column per key that
    occurs in some record. *)
Definition DataFrame_of_records (l : list (gmap string cell)) : DataFrame :=
  {| columns := ⋃ (dom <$> l); records := l |}.

(** A row of the table [compute_portfolio] returns. *)
Record Row : Type := {
  symbol : string;
  symbol_norm : string;
  qty : float;
  buy_price : float;
  current_price : float;
  one_d_return_pct : float;
  invested : float;
  current_value : float;
  profit_loss : float;
  return_pct : float;
}.

(** [fillna(0)] *)
Definition fillna0 (x : float) : float := if isna x then Fin 0 else x.

(** [Series.map(d)] at one key: the dict's value, NaN for [None]. *)
Definition map_dict (d : gmap string (option float)) (k : string) : float :=
  match d !! k with Some (Some v) => v | _ => NaN end.

(** The lambda of lines 157-160, on one row. *)
Definition return_pct_lambda (r_profit_loss r_invested : float) : result (option float) :=
  if truthy r_invested
  then q ← truediv r_profit_loss r_invested; mret (Some (fmul q (Fin 100)))
  else mret None.

Definition round_row (r : Row) : Row :=
  {| symbol := symbol r;
     symbol_norm := symbol_norm r;
     qty := fround2 (qty r);
     buy_price := fround2 (buy_price r);
     current_price := fround2 (current_price r);
     one_d_return_pct := fround2 (one_d_return_pct r);
     invested := fround2 (invested r);
     current_value := fround2 (current_value r);
     profit_loss := fround2 (profit_loss r);
     return_pct := fround2 (return_pct r) |}.

Section Compute.
Context (src : PriceSource).
(** The number pandas reads in a string, [None] when the string is
    not numeric. *)
Context (parse_numeric : string → option Q).

(** [pd.to_numeric(_, errors="coerce")] on one value: what cannot be
    read as a number becomes NaN. *)
Definition to_numeric (c : cell) : float :=
  match c with
  | CNum q => Fin q
  | CStr s => match parse_numeric s with Some q => Fin q | None => NaN end
  | CNull => NaN
  end.

(** [normalize_symbol] applied to a cell of the symbol column: only a
    string has [strip]. *)
Definition apply_normalize (c : cell) : result string :=
  match c with
  | CStr s => mret (normalize_symbol s)
  | _ => Raise AttributeError
  end.

(** Lines 149-160 for one record, given the two dicts. *)
Definition compute_row (price_map ret_map : gmap string (option float))
    (r : gmap string cell) (sym_norm : string) : result Row :=
  let current_price := map_dict price_map sym_norm in
  let one_d_return_pct := map_dict ret_map sym_norm in
  let qty := fillna0 (to_numeric (at_col "qty" r)) in
  let buy_price := fillna0 (to_numeric (at_col "buy_price" r)) in
  let invested := fmul qty buy_price in
  let current_value := fmul qty current_price in
  let profit_loss := fsub current_value invested in
  rp ← return_pct_lambda profit_loss invested;
  mret {| symbol := match at_col "symbol" r with CStr s => s | _ => EmptyString end;
          symbol_norm := sym_norm;
          qty := qty; buy_price := buy_price;
          current_price := current_price; one_d_return_pct := one_d_return_pct;
          invested := invested; current_value := current_value;
          profit_loss := profit_loss;
          return_pct := default NaN rp |}.

(** [compute_portfolio] up to, and without, its last line. *)
Definition compute_unrounded (df : DataFrame) : result (list Row) :=
  symbol_norm ← mapM (λ r, apply_normalize (at_col "symbol" r)) (records df);
  '(price_map, ret_map) ← fetch_live_prices src symbol_norm;
  mapM (λ '(r, s), compute_row price_map ret_map r s) (zip (records df) symbol_norm).

Definition compute_portfolio (df : DataFrame) : result (list Row) :=
  rows ← compute_unrounded df;
  mret (round_row <$> (rows : list Row)).

End Compute.

(** What pandas makes of the current_price column ([Series.map] of the
    dict of prices): an object column holding [None] when the dict holds
    no number at all, and a float column, a missing price being NaN, as
    soon as it holds one. *)
Definition price_column_of_None (price_map : gmap string (option float)) : bool :=
  forallb (λ kv, match kv.2 with None => true | Some _ => false end) (map_to_list price_map).

(** [compute_portfolio] once more, the table together with that fact
    about its current_price column, which the rows alone do not tell. *)
Definition compute_portfolio_frame (src : PriceSource) (parse_numeric : string → option Q)
    (df : DataFrame) : result (list Row * bool) :=
  symbol_norm ← mapM (λ r, apply_normalize (at_col "symbol" r)) (records df);
  '(price_map, ret_map) ← fetch_live_prices src symbol_norm;
  rows ← mapM (λ '(r, s), compute_row parse_numeric price_map ret_map r s)
              (zip (records df) symbol_norm);
  mret (round_row <$> (rows : list Row), price_column_of_None price_map).

(** ** The summary *)

(** What [print_summary] computes: the four numbers it prints, and the
    overall one-day change it prints and returns. *)
Record Summary : Type := {
  total_invested : float;
  total_current : float;
  total_pnl : float;
  total_return_pct : option float;
  overall_1d_change : option float;
}.

(** [df.dropna(subset=["1d_return_pct", "current_value"])] *)
Definition valid_1d (df : list Row) : list Row :=
  filter (λ r, isna (one_d_return_pct r) = false ∧ isna (current_value r) = false) df.

Definition print_summary (df : list Row) : Summary :=
  let total_invested := fsum (invested <$> df) in
  let total_current := fsum (current_value <$> df) in
  let total_pnl := fsub total_current total_invested in
  let total_return_pct :=
    if truthy total_invested
    then Some (fmul (fdiv total_pnl total_invested) (Fin 100)) else None in
  let valid_1d := valid_1d df in
  let overall_1d_change :=
    match valid_1d with
    | _ :: _ =>
        Some (fdiv (fsum ((λ r, fmul (one_d_return_pct r) (current_value r)) <$> valid_1d))
                   (fsum (current_value <$> valid_1d)))
    | [] => None
    end in
  {| total_invested := total_invested; total_current := total_current;
     total_pnl := total_pnl; total_return_pct := total_return_pct;
     overall_1d_change := overall_1d_change |}.

(** [int(x)] of a float: its integer part, and an exception for an
    infinity and for NaN. *)
Definition int_of_float (x : float) : result Z :=
  match x with
  | Fin q => Ok (Z.quot (Qnum q) (Z.pos (Qden q)))
  | NaN => Raise ValueError_IntOfNaN
  | PInf | NInf => Raise OverflowError
  end.

(** One line of the holdings table, lines 197-205: what can raise in it
    is [int(row['qty'])] and the format [:>10.2f] of the current price,
    which [None] does not support (NaN does). *)
Definition print_row (price_is_None : bool) (row : Row) : result () :=
  _ ← int_of_float (qty row);
  if price_is_None then Raise TypeError else mret ().

(** The loop of lines 196-205. *)
Definition print_holdings (price_column_of_None : bool) (df : list Row) : result () :=
  _ ← mapM (print_row price_column_of_None) df;
  mret ().

(** The call [print_summary(df)]: the summary, the holdings table, and
    the overall one-day change returned. *)
Definition print_summary_call (price_column_of_None : bool) (df : list Row)
    : result (option float) :=
  let summary := print_summary df in
  _ ← print_holdings price_column_of_None df;
  mret (overall_1d_change summary).

(** ** The loader *)

(** A path, with the suffix pathlib computes for it. *)
Record Path : Type := { path_name : string; suffix : string }.

Definition required : gset string := {[ "symbol"; "qty"; "buy_price" ]}.

Section Load.
(** Opening the file, [json.load] and [pd.DataFrame(data)]: the frame,
    or the exception one of the three raises. *)
Context (read_frame : Path → result DataFrame).

Definition load_portfolio (path : Path) : result DataFrame :=
  if negb (String.eqb (Str.str (Str.lower (Str.chars (suffix path)))) ".json")
  then Raise ValueError_OnlyJson
  else
    df ← try_except (read_frame path) (λ e, Raise (ValueError_FailedToRead e));
    if negb (bool_decide (required ⊆ columns df))
    then Raise ValueError_MustContainKeys
    else mret df.
End Load.

(** ** The bulb *)

Inductive bulb_call : Type :=
  | turn_on
  | turn_off
  | set_colour (r g b : N)
  | set_white.

Inductive light : Type :=
  | Colour (r g b : N)
  | White.

(** The device: its power and light state, and every call made to it. *)
Record BulbDevice : Type := {
  is_on : bool;
  shines : light;
  calls : list bulb_call;
}.

Inductive message : Type :=
  | Bulb_GREEN_Gain
  | Bulb_RED_Loss
  | Bulb_WHITE_Neutral
  | Bulb_control_failed (e : exn).

Definition effect (c : bulb_call) (dev : BulbDevice) : BulbDevice :=
  match c with
  | turn_on => {| is_on := true; shines := shines dev; calls := calls dev |}
  | turn_off => {| is_on := false; shines := shines dev; calls := calls dev |}
  | set_colour r g b => {| is_on := is_on dev; shines := Colour r g b; calls := calls dev |}
  | set_white => {| is_on := is_on dev; shines := White; calls := calls dev |}
  end.

Definition logged (c : bulb_call) (dev : BulbDevice) : BulbDevice :=
  {| is_on := is_on dev; shines := shines dev; calls := calls dev ++ [c] |}.

Section Bulb.
(** Whether a call to the device, in a given state, fails (and raises)
    instead of taking effect. *)
Context (fails : BulbDevice → bulb_call → option exn).

Definition call (c : bulb_call) (dev : BulbDevice) : BulbDevice * result () :=
  match fails dev c with
  | Some e => (logged c dev, Raise e)
  | None => (effect c (logged c dev), Ok ())
  end.

(** The branch of lines 54-62: the call made after [turn_on], and the
    message printed after it. *)
Definition colour_branch (change_pct : float) : bulb_call * message :=
  if fgt change_pct (Fin (3 # 10)) then (set_colour 0 255 0, Bulb_GREEN_Gain)
  else if flt change_pct (Fin (- 3 # 10)) then (set_colour 255 0 0, Bulb_RED_Loss)
  else (set_white, Bulb_WHITE_Neutral).

Definition set_bulb_color (bulb : BulbDevice) (change_pct : option float)
    : BulbDevice * list message :=
  match change_pct with
  | None => (bulb, [])
  | Some v =>
      match call turn_on bulb with
      | (bulb, Raise e) => (bulb, [Bulb_control_failed e])
      | (bulb, Ok _) =>
          let '(c, msg) := colour_branch v in
          match call c bulb with
          | (bulb, Raise e) => (bulb, [Bulb_control_failed e])
          | (bulb, Ok _) => (bulb, [msg])
          end
      end
  end.
End Bulb.

(** ** One polling cycle *)

(** The body of the loop of [main], lines 221-223, without the sleep. *)
Definition cycle (src : PriceSource) (parse_numeric : string → option Q)
    (fails : BulbDevice → bulb_call → option exn)
    (bulb : BulbDevice) (df_port : DataFrame) : result (BulbDevice * list message) :=
  '(df_result, price_column_of_None) ← compute_portfolio_frame src parse_numeric df_port;
  one_d_change ← print_summary_call price_column_of_None df_result;
  mret (set_bulb_color fails bulb one_d_change).

(** ** The program

    Lines 33-39 (the settings read at import time) and [main], lines
    209-228.  The loop runs until Ctrl+C; the interrupt is taken to arrive
    during the sleep that follows a cycle, after [n] cycles were made. *)

(** The three Tuya settings of the environment, [None] when unset. *)
Record Env : Type := {
  TUYA_DEVICE_ID : option string;
  TUYA_DEVICE_IP : option string;
  TUYA_LOCAL_KEY : option string;
}.

(** Truth value of what [os.getenv] returns: a non-empty string. *)
Definition str_truthy (x : option string) : bool :=
  match x with Some s => negb (String.eqb s "") | None => false end.

(** [all([DEVICE_ID, DEVICE_IP, LOCAL_KEY])] *)
Definition env_ok (env : Env) : bool :=
  str_truthy (TUYA_DEVICE_ID env) && str_truthy (TUYA_DEVICE_IP env)
  && str_truthy (TUYA_LOCAL_KEY env).

(** What the program runs in: the environment, the file system, the
    provider as it answers during each cycle, pandas' number parser, the
    device with the state it is in when the program starts, and the
    exception [init_bulb] raises, if it raises. *)
Record World : Type := {
  environ : Env;
  path_exists : Path → bool;
  read_json : Path → result DataFrame;
  provider : nat → PriceSource;
  numeric_parser : string → option Q;
  device_fails : BulbDevice → bulb_call → option exn;
  device : BulbDevice;
  init_bulb_fails : option exn;
}.

(** How a run ends: one of the two [SystemExit]s, an exception nobody
    catches, or the exit after Ctrl+C; with the bulb as it is left. *)
Inductive outcome : Type :=
  | SystemExit_MissingEnv
  | SystemExit_FileNotFound
  | Uncaught (e : exn) (bulb : BulbDevice)
  | Exited (bulb : BulbDevice).

Definition PORTFOLIO_FILE : Path := {| path_name := "portfolio.json"; suffix := ".json" |}.

(** [n] rounds of the [while True] loop, the [k]-th cycle being the next:
    the bulb after them, and the exception that ended the loop, if any. *)
Fixpoint main_loop (w : World) (n k : nat) (bulb : BulbDevice) (df_port : DataFrame)
    : BulbDevice * option exn :=
  match n with
  | O => (bulb, None)
  | S n' =>
      match cycle (provider w k) (numeric_parser w) (device_fails w) bulb df_port with
      | Ok (bulb', _) => main_loop w n' (S k) bulb' df_port
      | Raise e => (bulb, Some e)
      end
  end.

Definition main (w : World) (n : nat) : outcome :=
  if negb (path_exists w PORTFOLIO_FILE) then SystemExit_FileNotFound
  else
    match init_bulb_fails w with
    | Some e => Uncaught e (device w)
    | None =>
        match load_portfolio (read_json w) PORTFOLIO_FILE with
        | Raise e => Uncaught e (device w)
        | Ok df_port =>
            match main_loop w n 0 (device w) df_port with
            | (bulb, Some e) => Uncaught e bulb
            | (bulb, None) =>
                match call (device_fails w) turn_off bulb with
                | (bulb, Ok _) => Exited bulb
                | (bulb, Raise e) => Uncaught e bulb
                end
            end
        end
    end.

(** The script: the settings are checked when the module is loaded,
    before [main] runs. *)
Definition script (w : World) (n : nat) : outcome :=
  if negb (env_ok (environ w)) then SystemExit_MissingEnv else main w n.

(** ** Sample collaborators

    Concrete stand-ins for the external parts, used to run the program on
    examples. *)
Module Sample.

(** A provider that knows the fast quote of the listed symbols and
    raises for every other one; no history, no detailed quote. *)
Definition quotes (table : list (string * (option float * option float))) : PriceSource :=
  {| fast_info sym :=
       match (list_to_map table : gmap string _) !! sym with
       | Some q => Ok q
       | None => Raise (ExternalError "unknown symbol")
       end;
     history_close _ := Ok [];
     info_previousClose _ := Ok None |}.

(** A provider that is down. *)
Definition offline : PriceSource :=
  {| fast_info _ := Raise (ExternalError "network error");
     history_close _ := Raise (ExternalError "network error");
     info_previousClose _ := Raise (ExternalError "network error") |}.

Fixpoint digits (acc : N) (s : list ascii) : option N :=
  match s with
  | [] => Some acc
  | c :: s' =>
      let n := Str.code c in
      if ((48 <=? n) && (n <=? 57))%N then digits (10 * acc + (n - 48)) s' else None
  end.

(** Reads the strings made of decimal digits only. *)
Definition parse_digits (s : string) : option Q :=
  match Str.chars s with
  | [] => None
  | l => (λ n, inject_Z (Z.of_N n)) <$> digits 0 l
  end.

(** A device whose calls never fail. *)
Definition reliable : BulbDevice → bulb_call → option exn := λ _ _, None.

(** A device that cannot be reached. *)
Definition unreachable : BulbDevice → bulb_call → option exn :=
  λ _ _, Some (ExternalError "device unreachable").

Definition bulb_off : BulbDevice := {| is_on := false; shines := White; calls := [] |}.

Definition holding (sym : string) (qty buy_price : cell) : gmap string cell :=
  {[ "symbol" := CStr sym; "qty" := qty; "buy_price" := buy_price ]}.

Definition json_path : Path := {| path_name := "portfolio.json"; suffix := ".json" |}.

(** A run in which everything is in place: two holdings, of which the
    provider quotes ACME alone, and that during the first two cycles;
    after them it is down. *)
Definition world : World :=
  {| environ := {| TUYA_DEVICE_ID := Some "id"; TUYA_DEVICE_IP := Some "10.0.0.2";
                   TUYA_LOCAL_KEY := Some "key" |};
     path_exists _ := true;
     read_json _ := Ok (DataFrame_of_records [holding "GONE" (CNum 1) (CNum 50);
                                              holding "ACME" (CNum 2) (CNum 10)]);
     provider k := if (k <? 2)%nat
                   then quotes [("ACME.NS", (Some (Fin 102), Some (Fin 100)))]
                   else offline;
     numeric_parser := parse_digits;
     device_fails := reliable;
     device := bulb_off;
     init_bulb_fails := None |}.

End Sample.

(** ** The vocabulary of the properties

    The spec's notions in its own words, and the closed forms the proofs
    compare the program with. *)

(** Neither the first nor the last character is whitespace. *)
Definition space_free_ends (s : list ascii) : Prop :=
  (∀ c, head s = Some c → Str.isspace c = false) ∧
  (∀ c, last s = Some c → Str.isspace c = false).

(** The percent-encoding of one character of a symbol. *)
Definition encode_amp (c : ascii) : list ascii :=
  if decide (c = "&"%char) then Str.chars "%26" else [c].

(** A symbol with the market suffix, appended when it is not there. *)
Definition with_NS (u : list ascii) : list ascii :=
  if decide (Str.chars ".NS" `suffix_of` u) then u else u ++ Str.chars ".NS".

(** The four states of the spec's classifier, and the classifier in the
    spec's words, on an optional exact value. *)
Inductive signal : Type := GAIN | LOSS | NEUTRAL | UNKNOWN.

Definition classify (x : option Q) : signal :=
  match x with
  | None => UNKNOWN
  | Some q =>
      if Qlt_le_dec (3 # 10) q then GAIN
      else if Qlt_le_dec q (- 3 # 10) then LOSS
      else NEUTRAL
  end.

(** What each state shows on a bulb whose calls succeed: green, red,
    white, or nothing at all. *)
Definition shown (s : signal) (bulb : BulbDevice) : BulbDevice * list message :=
  match s with
  | GAIN => ({| is_on := true; shines := Colour 0 255 0;
                calls := calls bulb ++ [turn_on; set_colour 0 255 0] |}, [Bulb_GREEN_Gain])
  | LOSS => ({| is_on := true; shines := Colour 255 0 0;
                calls := calls bulb ++ [turn_on; set_colour 255 0 0] |}, [Bulb_RED_Loss])
  | NEUTRAL => ({| is_on := true; shines := White;
                   calls := calls bulb ++ [turn_on; set_white] |}, [Bulb_WHITE_Neutral])
  | UNKNOWN => (bulb, [])
  end.

(** The exact one-day return of a quote, in percent. *)
Definition pct_change (l p : Q) : Q := qmul (qdiv (qsub l p) p) 100.

(** The one-day return of a quote in the spec's words: defined when both
    prices are present and the previous close is not zero. *)
Definition spec_one_day_return_pct (last_price prev_close : option Q) : option Q :=
  match last_price, prev_close with
  | Some l, Some p => if qzero p then None else Some (round2 (pct_change l p))
  | _, _ => None
  end.

(** The pair a fetch gives, read off its result. *)
Definition fetched (src : PriceSource) (sym : string) : option float * option float :=
  match fetch_yfinance_price src sym with
  | Ok r => r
  | Raise _ => (None, None)
  end.

(** Two providers that answer alike for one symbol. *)
Definition agree_at (sym : string) (src src' : PriceSource) : Prop :=
  fast_info src sym = fast_info src' sym ∧
  history_close src sym = history_close src' sym ∧
  info_previousClose src sym = info_previousClose src' sym.

(** The string in the symbol cell of a record. *)
Definition symbol_of (r : gmap string cell) : string :=
  match at_col "symbol" r with CStr s => s | _ => EmptyString end.

(** The symbol cell of a record holds a string. *)
Definition has_symbol (r : gmap string cell) : Prop :=
  ∃ s, at_col "symbol" r = CStr s.

(** The row [compute_row] builds. *)
Definition row_of (parse_numeric : string → option Q)
    (price_map ret_map : gmap string (option float))
    (r : gmap string cell) : Row :=
  let sym_norm := normalize_symbol (symbol_of r) in
  let qty := fillna0 (to_numeric parse_numeric (at_col "qty" r)) in
  let buy_price := fillna0 (to_numeric parse_numeric (at_col "buy_price" r)) in
  let invested := fmul qty buy_price in
  let current_value := fmul qty (map_dict price_map sym_norm) in
  let profit_loss := fsub current_value invested in
  {| symbol := symbol_of r; symbol_norm := sym_norm;
     qty := qty; buy_price := buy_price;
     current_price := map_dict price_map sym_norm;
     one_d_return_pct := map_dict ret_map sym_norm;
     invested := invested; current_value := current_value;
     profit_loss := profit_loss;
     return_pct := if truthy invested
                   then fmul (fdiv profit_loss invested) (Fin 100) else NaN |}.

(** The two dicts the table is computed from. *)
Definition dicts (src : PriceSource) (df : DataFrame)
    : gmap string (option float) * gmap string (option float) :=
  let symbols := (λ r, normalize_symbol (symbol_of r)) <$> records df in
  (foldl (λ m s, <[s := (fetched src s).1]> m) ∅ symbols,
   foldl (λ m s, <[s := (fetched src s).2]> m) ∅ symbols).

(** The table before its last rounding, in closed form. *)
Definition table (src : PriceSource) (parse_numeric : string → option Q) (df : DataFrame)
    : list Row :=
  row_of parse_numeric (dicts src df).1 (dicts src df).2 <$> records df.

(** What holds inside every row of the table before it is rounded. *)
Record row_consistent (u : Row) : Prop := {
  qty_finite : ∃ q, qty u = Fin q;
  buy_price_finite : ∃ b, buy_price u = Fin b;
  invested_eq : invested u = fmul (qty u) (buy_price u);
  current_value_eq : current_value u = fmul (qty u) (current_price u);
  profit_loss_eq : profit_loss u = fsub (current_value u) (invested u);
  return_pct_eq :
    return_pct u = if truthy (invested u)
                   then fmul (fdiv (profit_loss u) (invested u)) (Fin 100) else NaN;
}.


(** The rows whose current value is defined. *)
Definition priced (df : list Row) : list Row :=
  filter (λ r, isna (current_value r) = false) df.

(** The totals in the spec's words: sums over the rows whose current
    value is defined. *)
Definition spec_total_invested (df : list Row) : float :=
  foldl fadd (Fin 0) (invested <$> priced df).

Definition spec_total_current_value (df : list Row) : float :=
  foldl fadd (Fin 0) (current_value <$> priced df).

Definition spec_total_profit_loss (df : list Row) : float :=
  foldl fadd (Fin 0) (profit_loss <$> priced df).

(** The summary rounded for presentation. *)
Definition round_summary (s : Summary) : Summary :=
  {| total_invested := fround2 (total_invested s);
     total_current := fround2 (total_current s);
     total_pnl := fround2 (total_pnl s);
     total_return_pct := fround2 <$> total_return_pct s;
     overall_1d_change := fround2 <$> overall_1d_change s |}.

(** The (return, weight) pairs of the rows that qualify for the overall
    one-day change: both numbers defined. *)
Definition qualifying (df : list Row) : list (Q * Q) :=
  omap (λ r, match one_d_return_pct r, current_value r with
             | Fin x, Fin w => Some (x, w)
             | _, _ => None
             end) df.

(** The sum of return times weight, and the sum of the weights. *)
Definition weighted_sum (l : list (Q * Q)) : Q := foldl qadd 0 ((λ p, qmul p.1 p.2) <$> l).

Definition weight_sum (l : list (Q * Q)) : Q := foldl qadd 0 (snd <$> l).

(** The overall one-day change in the spec's words: the weighted mean,
    undefined when no row qualifies or the weights sum to zero. *)
Definition spec_overall_one_day_change_pct (l : list (Q * Q)) : option Q :=
  match l with
  | [] => None
  | _ :: _ => if qzero (weight_sum l) then None
              else Some (qdiv (weighted_sum l) (weight_sum l))
  end.

(** A number or NaN: no infinity. *)
Definition finite_or_missing (x : float) : Prop :=
  match x with PInf | NInf => False | _ => True end.

(** A symbol as [normalize_symbol] leaves it: no whitespace at either
    end, no lower-case letter, the suffix ".NS", no ampersand. *)
Definition normal_form (s : list ascii) : Prop :=
  space_free_ends s ∧ Str.upper s = s ∧
  (Str.chars ".NS" `suffix_of` s) ∧ "&"%char ∉ s.

(** The fast quote is usable as it is: both prices present and not zero. *)
Definition complete (q : option float * option float) : bool :=
  otruthy q.1 && otruthy q.2.



(** * Properties *)

Example round2_ties :
  round2 (dec 2675 3) = dec 268 2 ∧ round2 (dec 2665 3) = dec 266 2
  ∧ round2 (dec (-1006) 3) = dec (-101) 2 ∧ round2 (dec 1004 3) = 1.
Proof. repeat split; reflexivity. Qed.

Example normalize_kept : normalize_symbol "tcs.ns" = "TCS.NS".
Proof. reflexivity. Qed.

Example sample_cycle :
  cycle (Sample.quotes [("ACME.NS", (Some (Fin 102), Some (Fin 100)))]) Sample.parse_digits
        Sample.reliable Sample.bulb_off
        (DataFrame_of_records [Sample.holding " acme " (CStr "3") (CNum 90)])
  = Ok ({| is_on := true; shines := Colour 0 255 0; calls := [turn_on; set_colour 0 255 0] |},
        [Bulb_GREEN_Gain]).
Proof. vm_compute. reflexivity. Qed.

(** ** Symbol normalisation *)

Section NormalizeFacts.
Import Str.

Lemma lstrip_split s :
  ∃ l, s = l ++ lstrip s ∧ Forall (λ c, isspace c = true) l ∧
       ∀ c, head (lstrip s) = Some c → isspace c = false.
Proof.
  induction s as [|a s (l & Hs & Hl & Hh)]; simpl.
  - exists []. split_and!; [done | constructor | done].
  - destruct (isspace a) eqn:Ha.
    + exists (a :: l). split_and!; [by rewrite Hs at 1 | by constructor | done].
    + exists []. split_and!; [done | constructor |].
      intros c [= <-]. done.
Qed.

Lemma rstrip_split s :
  ∃ r, s = rstrip s ++ r ∧ Forall (λ c, isspace c = true) r ∧
       ∀ c, last (rstrip s) = Some c → isspace c = false.
Proof.
  destruct (lstrip_split (reverse s)) as (l & Hs & Hl & Hh).
  exists (reverse l). unfold rstrip. split_and!.
  - rewrite <- reverse_app, <- Hs. by rewrite reverse_involutive.
  - by apply Forall_reverse.
  - intros c. rewrite last_reverse. apply Hh.
Qed.

Lemma strip_split s :
  ∃ l r, s = l ++ strip s ++ r ∧
         Forall (λ c, isspace c = true) l ∧ Forall (λ c, isspace c = true) r ∧
         space_free_ends (strip s).
Proof.
  destruct (lstrip_split s) as (l & Hs & Hl & Hh).
  destruct (rstrip_split (lstrip s)) as (r & Ht & Hr & Hlast).
  exists l, r. unfold strip, space_free_ends. split_and!; try done.
  - by rewrite <- Ht.
  - intros c Hc. apply Hh. rewrite Ht.
    destruct (rstrip (lstrip s)); simplify_eq/=; done.
Qed.

(** Replacing a one-character pattern rewrites the string character by
    character. *)
Lemma replace_char s a new :
  replace s [a] new = s ≫= λ c, if decide (c = a) then new else [c].
Proof.
  unfold replace. induction s as [|c s IH]; [done|].
  cbn [replace_from startswith length Nat.sub mbind list_bind].
  replace (startswith s []) with true by (by destruct s).
  rewrite andb_true_r, IH.
  destruct (decide (c = a)) as [->|Hne].
  - by rewrite bool_decide_eq_true_2.
  - rewrite bool_decide_eq_false_2; [done | congruence].
Qed.

Lemma chars_str l : chars (str l) = l.
Proof. apply String.list_ascii_of_string_of_list_ascii. Qed.

End NormalizeFacts.

(** C9. [normalize_symbol] is a function of its argument alone, and on an
    ASCII symbol it trims the surrounding whitespace, upper-cases what is
    left, appends ".NS" unless that already ends with ".NS", and writes
    every ampersand as "%26"; so " acme " gives "ACME.NS" and "M&M" gives
    "M%26M.NS". *)
Theorem normalize_symbol_spec (raw : string) :
  Forall Str.is_ascii (Str.chars raw) →
  ∃ l core r,
    Str.chars raw = l ++ core ++ r ∧
    Forall (λ c, Str.isspace c = true) l ∧ Forall (λ c, Str.isspace c = true) r ∧
    space_free_ends core ∧
    (Str.chars ".NS" `suffix_of` with_NS (Str.upper core)) ∧
    Str.chars (normalize_symbol raw) = with_NS (Str.upper core) ≫= encode_amp ∧
    ("&"%char ∉ Str.chars (normalize_symbol raw)) ∧
    normalize_symbol " acme " = "ACME.NS" ∧
    normalize_symbol "M&M" = "M%26M.NS".
Proof.
  intros _.
  destruct (strip_split (Str.chars raw)) as (l & r & Hs & Hl & Hr & Hends).
  assert (Str.chars (normalize_symbol raw)
          = with_NS (Str.upper (Str.strip (Str.chars raw))) ≫= encode_amp) as Hnorm.
  { unfold normalize_symbol, normalize_chars, with_NS. rewrite chars_str.
    change (Str.chars "&") with ["&"%char]. rewrite replace_char.
    unfold Str.endswith, AUTO_APPEND_NS. cbn [andb].
    by destruct (decide _) as [H|H];
      [rewrite bool_decide_eq_true_2 | rewrite bool_decide_eq_false_2]. }
  exists l, (Str.strip (Str.chars raw)), r. split_and!; try done.
  - unfold with_NS. case_decide; [done | by apply suffix_app_r].
  - rewrite Hnorm. intros (c & Hin & _)%list_elem_of_bind.
    unfold encode_amp in Hin. case_decide as Hc.
    + repeat (apply elem_of_cons in Hin as [Hin|Hin]; [discriminate|]).
      by apply elem_of_nil in Hin.
    + apply list_elem_of_singleton in Hin. congruence.
Qed.

Lemma normalize_symbol_spec_witness :
  ∃ l core r,
    Str.chars " acme " = l ++ core ++ r ∧
    Forall (λ c, Str.isspace c = true) l ∧ Forall (λ c, Str.isspace c = true) r ∧
    space_free_ends core ∧
    (Str.chars ".NS" `suffix_of` with_NS (Str.upper core)) ∧
    Str.chars (normalize_symbol " acme ") = with_NS (Str.upper core) ≫= encode_amp ∧
    ("&"%char ∉ Str.chars (normalize_symbol " acme ")) ∧
    normalize_symbol " acme " = "ACME.NS" ∧
    normalize_symbol "M&M" = "M%26M.NS".
Proof.
  apply (normalize_symbol_spec " acme ").
  unfold Str.is_ascii. repeat constructor.
Defined.

(** ** The indicator *)

Lemma fgt_Fin a b : fgt (Fin a) (Fin b) = true ↔ b < a.
Proof.
  cbn. change (b < a) with (a > b). rewrite Qgt_alt.
  destruct (a ?= b); split; congruence.
Qed.

Lemma flt_Fin a b : flt (Fin a) (Fin b) = true ↔ a < b.
Proof. apply fgt_Fin. Qed.

Lemma colour_branch_classify q :
  colour_branch (Fin q) =
    match classify (Some q) with
    | GAIN => (set_colour 0 255 0, Bulb_GREEN_Gain)
    | LOSS => (set_colour 255 0 0, Bulb_RED_Loss)
    | _ => (set_white, Bulb_WHITE_Neutral)
    end.
Proof.
  unfold colour_branch, classify.
  destruct (Qlt_le_dec (3 # 10) q) as [Hgt|Hle].
  { apply fgt_Fin in Hgt. by rewrite Hgt. }
  destruct (fgt (Fin q) (Fin (3 # 10))) eqn:E.
  { apply fgt_Fin in E. by apply Qlt_not_le in E. }
  destruct (Qlt_le_dec q (- 3 # 10)) as [Hlt|Hge].
  { apply flt_Fin in Hlt. by rewrite Hlt. }
  destruct (flt (Fin q) (Fin (- 3 # 10))) eqn:E'; [|done].
  apply flt_Fin in E'. by apply Qlt_not_le in E'.
Qed.

Lemma classify_cases q :
  (classify (Some q) = GAIN ↔ 3 # 10 < q) ∧
  (classify (Some q) = LOSS ↔ q < - 3 # 10) ∧
  (classify (Some q) = NEUTRAL ↔ - 3 # 10 <= q ∧ q <= 3 # 10) ∧
  classify (Some q) ≠ UNKNOWN.
Proof.
  unfold classify.
  destruct (Qlt_le_dec (3 # 10) q) as [Hgt|Hle];
    [|destruct (Qlt_le_dec q (- 3 # 10)) as [Hlt|Hge]].
  - split_and!; [done | | | done].
    + split; [done|]. intros Hlt. exfalso.
      apply (Qlt_irrefl q), (Qlt_trans _ (- 3 # 10)); [done|].
      by apply (Qlt_trans _ (3 # 10)).
    + split; [done|]. intros [_ Hle]. by apply Qlt_not_le in Hgt.
  - split_and!; [ | done | | done].
    + split; [done|]. intros Hgt. by apply Qlt_not_le in Hgt.
    + split; [done|]. intros [Hge _]. by apply Qlt_not_le in Hlt.
  - split_and!; [ | | done | done].
    + split; [done|]. intros Hgt. by apply Qlt_not_le in Hgt.
    + split; [done|]. intros Hlt. by apply Qlt_not_le in Hlt.
Qed.

(** C2. The indicator step classifies the aggregate one-day change as the
    spec's classifier does: GAIN (green) above 0.3, LOSS (red) below -0.3,
    NEUTRAL (white) on the closed interval [-0.3, 0.3], UNKNOWN (nothing
    shown) when there is no value; 0.31 is a GAIN, 0.3 and -0.3 are
    NEUTRAL, -0.31 is a LOSS. *)
Theorem set_bulb_color_classifies
    (fails : BulbDevice → bulb_call → option exn) (bulb : BulbDevice) (x : option Q) :
  (∀ d c, fails d c = None) →
  set_bulb_color fails bulb (Fin <$> x) = shown (classify x) bulb ∧
  classify None = UNKNOWN ∧
  (∀ q, (classify (Some q) = GAIN ↔ 3 # 10 < q) ∧
        (classify (Some q) = LOSS ↔ q < - 3 # 10) ∧
        (classify (Some q) = NEUTRAL ↔ - 3 # 10 <= q ∧ q <= 3 # 10) ∧
        classify (Some q) ≠ UNKNOWN) ∧
  classify (Some (dec 31 2)) = GAIN ∧ classify (Some (dec 3 1)) = NEUTRAL ∧
  classify (Some (dec (-3) 1)) = NEUTRAL ∧ classify (Some (dec (-31) 2)) = LOSS.
Proof.
  intros Hok. split_and!; try done; [|apply classify_cases].
  destruct x as [q|]; [|done].
  unfold set_bulb_color, call. cbn [fmap option_fmap option_map].
  rewrite Hok, colour_branch_classify.
  destruct (classify (Some q)) eqn:E; cbn; rewrite Hok; cbn;
    rewrite <- ?app_assoc; try done.
  by apply classify_cases in E.
Qed.

Lemma set_bulb_color_classifies_witness :
  set_bulb_color Sample.reliable Sample.bulb_off (Fin <$> Some (dec 31 2))
    = shown (classify (Some (dec 31 2))) Sample.bulb_off ∧
  classify None = UNKNOWN ∧
  (∀ q, (classify (Some q) = GAIN ↔ 3 # 10 < q) ∧
        (classify (Some q) = LOSS ↔ q < - 3 # 10) ∧
        (classify (Some q) = NEUTRAL ↔ - 3 # 10 <= q ∧ q <= 3 # 10) ∧
        classify (Some q) ≠ UNKNOWN) ∧
  classify (Some (dec 31 2)) = GAIN ∧ classify (Some (dec 3 1)) = NEUTRAL ∧
  classify (Some (dec (-3) 1)) = NEUTRAL ∧ classify (Some (dec (-31) 2)) = LOSS.
Proof.
  apply (set_bulb_color_classifies Sample.reliable Sample.bulb_off (Some (dec 31 2))).
  reflexivity.
Defined.

(** A NaN is not [None]: the bulb is switched on and set to white. *)
Lemma set_bulb_color_nan bulb :
  set_bulb_color Sample.reliable bulb (Some NaN) = shown NEUTRAL bulb.
Proof. cbn. by rewrite <- app_assoc. Qed.

(** When the device cannot be reached, the failure is caught and reported. *)
Lemma set_bulb_color_unreachable bulb v e :
  set_bulb_color (λ _ _, Some e) bulb (Some v) = (logged turn_on bulb, [Bulb_control_failed e]).
Proof. reflexivity. Qed.

(** C10. With no value ([None]) the indicator step returns at once: no
    call is made to the device, whose power, light and record of calls
    are what they were, and nothing is printed. *)
Theorem set_bulb_color_None
    (fails : BulbDevice → bulb_call → option exn) (bulb : BulbDevice) :
  set_bulb_color fails bulb None = (bulb, []) ∧
  calls (set_bulb_color fails bulb None).1 = calls bulb ∧
  is_on (set_bulb_color fails bulb None).1 = is_on bulb ∧
  shines (set_bulb_color fails bulb None).1 = shines bulb.
Proof. done. Qed.

(** ** The price fetcher *)

Lemma qzero_true q : qzero q = true ↔ q == 0.
Proof. apply Qeq_bool_iff. Qed.

Lemma qzero_false q : qzero q = false ↔ ¬ q == 0.
Proof. rewrite <- qzero_true. by destruct (qzero q). Qed.

Lemma truthy_Fin q : truthy (Fin q) = true ↔ ¬ q == 0.
Proof. unfold truthy. cbn. rewrite negb_true_iff. apply qzero_false. Qed.

Lemma truediv_nonzero x y : feq0 y = false → truediv x y = Ok (fdiv x y).
Proof. unfold truediv. by intros ->. Qed.

(** The guard of line 118 keeps the division away from a zero divisor. *)
Lemma one_day_return_ok last_price prev_close :
  ∃ r, one_day_return last_price prev_close = Ok r.
Proof.
  destruct last_price as [l|], prev_close as [p|]; cbn; eauto.
  destruct (truthy l); cbn; eauto.
  destruct (truthy p) eqn:Hp; cbn; eauto.
  rewrite truediv_nonzero; [cbn; eauto|].
  unfold truthy in Hp. by apply negb_true_iff in Hp.
Qed.

Lemma quote_result_ok last_price prev_close :
  ∃ r, quote_result last_price prev_close = Ok r.
Proof.
  unfold quote_result.
  destruct (one_day_return_ok last_price prev_close) as [r ->]. cbn. eauto.
Qed.

Lemma pct_change_zero l p : ¬ p == 0 → pct_change l p == 0 → l == p.
Proof.
  unfold pct_change, qmul, qdiv, qsub. intros Hp. rewrite !Qred_correct. intros H.
  apply Qmult_integral in H as [H|H]; [|discriminate].
  apply Qmult_integral in H as [H|H].
  - rewrite <- (Qplus_0_l p), <- H. ring.
  - exfalso. apply Q_apart_0_1. rewrite <- (Qmult_inv_r p), H by done. ring.
Qed.

(** Where the fetcher gives a return: last price and previous close are
    both present, both non-zero, and different; the return is then the
    percent change rounded to two decimals. *)
Lemma quote_result_defined (l p : Q) :
  ¬ l == 0 → ¬ p == 0 → ¬ l == p →
  quote_result (Some (Fin l)) (Some (Fin p))
    = Ok (Some (Fin l), Some (Fin (round2 (pct_change l p)))).
Proof.
  intros Hl Hp Hlp. unfold quote_result, one_day_return.
  rewrite (proj2 (truthy_Fin l)), (proj2 (truthy_Fin p)) by done. cbn [andb].
  rewrite truediv_nonzero by (by apply qzero_false). cbn.
  rewrite (proj2 (qzero_false p)) by done. cbn.
  fold (pct_change l p).
  rewrite (proj2 (truthy_Fin l)) by done.
  rewrite (proj2 (truthy_Fin (pct_change l p))); [done|].
  intros H. by apply Hlp, pct_change_zero.
Qed.

(** No previous close, or a previous close of zero: no return. *)
Lemma quote_result_no_prev_close last_price prev_close :
  otruthy prev_close = false →
  ∃ price, quote_result last_price prev_close = Ok (price, None).
Proof.
  intros Hp. unfold quote_result, one_day_return.
  destruct last_price as [l|], prev_close as [p|]; cbn in *; eauto.
  rewrite Hp, andb_false_r. cbn. eauto.
Qed.

(** An unchanged price: the return 0.0 is dropped by the truth test of
    line 123. *)
Lemma quote_result_flat (q : Q) :
  ¬ q == 0 → quote_result (Some (Fin q)) (Some (Fin q)) = Ok (Some (Fin q), None).
Proof.
  intros Hq. unfold quote_result, one_day_return.
  rewrite (proj2 (truthy_Fin q)) by done. cbn [andb].
  rewrite truediv_nonzero by (by apply qzero_false). cbn.
  rewrite (proj2 (qzero_false q)) by done. cbn.
  rewrite (proj2 (truthy_Fin q)) by done.
  replace (truthy _) with false; [done|]. symmetry.
  unfold truthy. apply negb_false_iff, qzero_true.
  unfold qmul, qdiv, qsub. rewrite !Qred_correct. field. done.
Qed.

(** C3, at a quote whose last price equals its previous close.  The claim
    asks for the defined return 0.0; the fetcher returns [None], because
    line 123 tests the truth value of the return instead of comparing it
    with [None]. *)
Theorem fetch_flat_quote_has_no_return :
  fetch_yfinance_price (Sample.quotes [("ACME.NS", (Some (Fin 100), Some (Fin 100)))]) "ACME.NS"
    = Ok (Some (Fin 100), None) ∧
  quote_result (Some (Fin 100)) (Some (Fin 100)) = Ok (Some (Fin 100), None) ∧
  spec_one_day_return_pct (Some 100) (Some 100) = Some 0.
Proof. split_and!; reflexivity. Qed.

(** A last price of zero is dropped in the same way, with its return of
    -100 percent. *)
Example fetch_zero_last_price :
  quote_result (Some (Fin 0)) (Some (Fin 100)) = Ok (None, None) ∧
  spec_one_day_return_pct (Some 0) (Some 100) = Some (-100).
Proof. split; reflexivity. Qed.

Example fetch_rounds :
  quote_result (Some (Fin 101)) (Some (Fin 3)) = Ok (Some (Fin 101), Some (Fin (dec 326667 2))).
Proof. reflexivity. Qed.

(** The fallbacks of the fetcher: the two last closes replace the fast
    quote when it is incomplete. *)
Example fetch_uses_history :
  fetch_yfinance_price
    {| fast_info _ := Ok (Some (Fin 50), None);
       history_close _ := Ok [Fin 40; Fin 50; Fin 51];
       info_previousClose _ := Raise (ExternalError "not reached") |} "ACME.NS"
  = Ok (Some (Fin 51), Some (Fin 2)).
Proof. reflexivity. Qed.

Section FetchFacts.
Context (src : PriceSource).

(** The fetcher never raises. *)
Lemma fetch_yfinance_price_ok sym : fetch_yfinance_price src sym = Ok (fetched src sym).
Proof.
  unfold fetched, fetch_yfinance_price, try_except.
  by destruct (_ ≫= _).
Qed.

Lemma fetch_yfinance_price_failed sym e :
  resolve_quote src sym = Raise e → fetched src sym = (None, None).
Proof.
  intros H. unfold fetched, fetch_yfinance_price. by rewrite H.
Qed.

Lemma fast_info_failed sym e :
  fast_info src sym = Raise e → resolve_quote src sym = Raise e.
Proof. intros H. unfold resolve_quote. by rewrite H. Qed.

Lemma fetch_loop_ok symbols prices returns :
  fetch_loop src symbols prices returns
    = Ok (foldl (λ m s, <[s := (fetched src s).1]> m) prices symbols,
          foldl (λ m s, <[s := (fetched src s).2]> m) returns symbols).
Proof.
  revert prices returns. induction symbols as [|s symbols IH]; intros; [done|].
  cbn [fetch_loop foldl]. rewrite fetch_yfinance_price_ok. cbn.
  destruct (fetched src s) as [price daily_ret]. apply IH.
Qed.

Lemma lookup_foldl_insert {V} (f : string → V) symbols (m : gmap string V) k :
  foldl (λ m s, <[s := f s]> m) m symbols !! k
    = if decide (k ∈ symbols) then Some (f k) else m !! k.
Proof.
  revert m. induction symbols as [|s symbols IH]; intros m; cbn [foldl].
  - rewrite decide_False; [done | by intros ?%elem_of_nil].
  - rewrite IH. destruct (decide (k ∈ symbols)) as [Hin|Hnin].
    + rewrite decide_True; [done | by right].
    + destruct (decide (k = s)) as [->|Hne].
      * rewrite lookup_insert_eq, decide_True; [done | by left].
      * rewrite lookup_insert_ne by done.
        rewrite decide_False; [done|]. by intros [?|?]%elem_of_cons.
Qed.

Lemma dom_foldl_insert {V} (f : string → V) symbols (m : gmap string V) :
  dom (foldl (λ m s, <[s := f s]> m) m symbols) = list_to_set symbols ∪ dom m.
Proof.
  apply set_eq. intros k. rewrite elem_of_dom, lookup_foldl_insert.
  rewrite elem_of_union, elem_of_list_to_set, elem_of_dom.
  case_decide; split; eauto. by intros [?|?].
Qed.

End FetchFacts.

Lemma fetched_agree sym src src' : agree_at sym src src' → fetched src sym = fetched src' sym.
Proof.
  intros (H1 & H2 & H3).
  unfold fetched, fetch_yfinance_price, resolve_quote. by rewrite H1, H2, H3.
Qed.

(** C8. [fetch_live_prices] never raises, whatever the provider does, and
    fills both dicts for every symbol of the list: the entries of a symbol
    are what its own fetch gave, [None] and [None] when that fetch failed,
    and they do not depend on what the provider does for other symbols. *)
Theorem fetch_live_prices_isolates (src : PriceSource) (symbols : list string) :
  ∃ prices returns : gmap string (option float),
    fetch_live_prices src symbols = Ok (prices, returns) ∧
    dom prices = list_to_set symbols ∧ dom returns = list_to_set symbols ∧
    (∀ sym, sym ∈ symbols →
       ∃ price daily_ret,
         fetch_yfinance_price src sym = Ok (price, daily_ret) ∧
         prices !! sym = Some price ∧ returns !! sym = Some daily_ret) ∧
    (∀ sym e, sym ∈ symbols → resolve_quote src sym = Raise e →
       fetch_yfinance_price src sym = Ok (None, None) ∧
       prices !! sym = Some None ∧ returns !! sym = Some None) ∧
    (∀ src' sym, sym ∈ symbols → agree_at sym src src' →
       ∃ prices' returns' : gmap string (option float),
         fetch_live_prices src' symbols = Ok (prices', returns') ∧
         prices' !! sym = prices !! sym ∧ returns' !! sym = returns !! sym).
Proof.
  unfold fetch_live_prices. do 2 eexists. split; [apply fetch_loop_ok|].
  split_and!.
  - rewrite dom_foldl_insert, dom_empty_L. by rewrite (right_id_L ∅ (∪)).
  - rewrite dom_foldl_insert, dom_empty_L. by rewrite (right_id_L ∅ (∪)).
  - intros sym Hin. exists (fetched src sym).1, (fetched src sym).2.
    rewrite !lookup_foldl_insert, !decide_True by done.
    rewrite fetch_yfinance_price_ok. by destruct (fetched src sym).
  - intros sym e Hin Hfail.
    rewrite !lookup_foldl_insert, !decide_True by done.
    rewrite fetch_yfinance_price_ok.
    by rewrite (fetch_yfinance_price_failed src sym e Hfail).
  - intros src' sym Hin Hagree. do 2 eexists. split; [apply fetch_loop_ok|].
    rewrite !lookup_foldl_insert, !decide_True by done.
    by rewrite (fetched_agree sym src src' Hagree).
Qed.

(** One symbol fails, the other is fetched all the same. *)
Example fetch_live_prices_one_fails :
  fetch_live_prices (Sample.quotes [("ACME.NS", (Some (Fin 102), Some (Fin 100)))])
                    ["GONE.NS"; "ACME.NS"]
  = Ok ({[ "GONE.NS" := None; "ACME.NS" := Some (Fin 102) ]},
        {[ "GONE.NS" := None; "ACME.NS" := Some (Fin 2) ]}).
Proof. vm_compute. reflexivity. Qed.

(** ** The portfolio table *)

Section MapM.
Context {A B : Type} (f : A → result B).

Lemma mapM_result_ok (g : A → B) l :
  (∀ x, x ∈ l → f x = Ok (g x)) → mapM f l = Ok (g <$> l).
Proof.
  induction l as [|x l IH]; intros Hf; [done|].
  cbn. rewrite Hf by left. cbn. rewrite IH; [done|].
  intros y Hy. apply Hf. by right.
Qed.

Lemma mapM_result_inv l k : mapM f l = Ok k → Forall2 (λ x y, f x = Ok y) l k.
Proof.
  revert k. induction l as [|x l IH]; intros k; cbn.
  - intros [= <-]. constructor.
  - destruct (f x) as [y|e] eqn:Hx; cbn; [|done].
    destruct (mapM f l) as [k'|e]; cbn; [|done].
    intros [= <-]. constructor; [done | by apply IH].
Qed.

Lemma mapM_result_raise l e : mapM f l = Raise e → ∃ x, x ∈ l ∧ f x = Raise e.
Proof.
  induction l as [|x l IH]; cbn; [done|].
  destruct (f x) as [y|e'] eqn:Hx; cbn.
  - destruct (mapM f l) as [k'|e'']; cbn; [done|].
    intros [= ->]. destruct IH as (x' & ? & ?); [done|].
    exists x'. split; [by right | done].
  - intros [= ->]. exists x. split; [by left | done].
Qed.
End MapM.

Lemma zip_fmap_diag {A B} (g : A → B) (l : list A) :
  zip l (g <$> l) = (λ x, (x, g x)) <$> l.
Proof. induction l; cbn; [done | by f_equal]. Qed.

(** The lambda of lines 157-160 never divides by zero. *)
Lemma return_pct_lambda_ok profit_loss invested :
  return_pct_lambda profit_loss invested
    = Ok (if truthy invested then Some (fmul (fdiv profit_loss invested) (Fin 100)) else None).
Proof.
  unfold return_pct_lambda. destruct (truthy invested) eqn:E; [|done].
  rewrite truediv_nonzero; [done|]. unfold truthy in E. by apply negb_true_iff in E.
Qed.

Section ComputeFacts.
Context (src : PriceSource) (parse_numeric : string → option Q).

Lemma compute_row_ok price_map ret_map r :
  compute_row parse_numeric price_map ret_map r (normalize_symbol (symbol_of r))
    = Ok (row_of parse_numeric price_map ret_map r).
Proof.
  unfold compute_row, row_of. rewrite return_pct_lambda_ok. cbn.
  by destruct (truthy _).
Qed.

Lemma apply_normalize_symbol r :
  has_symbol r → apply_normalize (at_col "symbol" r) = Ok (normalize_symbol (symbol_of r)).
Proof. intros [s Hs]. unfold symbol_of. by rewrite Hs. Qed.

(** With a string in every symbol cell the table is computed. *)
Lemma compute_unrounded_ok df :
  Forall has_symbol (records df) →
  compute_unrounded src parse_numeric df = Ok (table src parse_numeric df).
Proof.
  intros Hsym. unfold compute_unrounded.
  rewrite (mapM_result_ok _ (λ r, normalize_symbol (symbol_of r))); last first.
  { intros r Hr. apply apply_normalize_symbol. by eapply Forall_forall in Hsym. }
  cbn. unfold fetch_live_prices. rewrite fetch_loop_ok. cbn.
  rewrite zip_fmap_diag.
  rewrite (mapM_result_ok _ (λ p, row_of parse_numeric (dicts src df).1 (dicts src df).2 p.1)); last first.
  { intros [r s] (r' & [= -> ->] & _)%list_elem_of_fmap. apply compute_row_ok. }
  by rewrite <- list_fmap_compose.
Qed.

Lemma normalized_has_symbol (l : list (gmap string cell)) syms :
  mapM (λ r, apply_normalize (at_col "symbol" r)) l = Ok syms → Forall has_symbol l.
Proof.
  intros Hm%mapM_result_inv.
  induction Hm as [|r s l k Hr]; constructor; [|done].
  unfold has_symbol. destruct (at_col "symbol" r); cbn in Hr; eauto; done.
Qed.

(** Otherwise [normalize_symbol] raises on a cell that is no string, and
    nothing else ever raises. *)
Lemma compute_unrounded_raise df e :
  compute_unrounded src parse_numeric df = Raise e →
  e = AttributeError ∧ ¬ Forall has_symbol (records df).
Proof.
  intros H.
  assert (¬ Forall has_symbol (records df)) as Hn.
  { intros Hsym. by rewrite compute_unrounded_ok in H. }
  split; [|done]. revert H. unfold compute_unrounded.
  destruct (mapM _ (records df)) as [syms|e'] eqn:Hm; cbn.
  - by apply normalized_has_symbol in Hm.
  - intros [= ->]. apply mapM_result_raise in Hm as (r & _ & Hr).
    unfold apply_normalize in Hr. destruct (at_col "symbol" r); by simplify_eq.
Qed.

Lemma compute_unrounded_inv df rows :
  compute_unrounded src parse_numeric df = Ok rows →
  Forall has_symbol (records df) ∧ rows = table src parse_numeric df.
Proof.
  intros H.
  assert (Forall has_symbol (records df)) as Hsym.
  { revert H. unfold compute_unrounded.
    destruct (mapM _ (records df)) as [syms|e'] eqn:Hm; cbn; [|done].
    intros _. by apply normalized_has_symbol in Hm. }
  split; [done|]. rewrite compute_unrounded_ok in H by done. congruence.
Qed.

Lemma compute_portfolio_ok df :
  Forall has_symbol (records df) →
  compute_portfolio src parse_numeric df = Ok (round_row <$> table src parse_numeric df).
Proof. intros H. unfold compute_portfolio. by rewrite compute_unrounded_ok. Qed.

Lemma compute_portfolio_inv df rows :
  compute_portfolio src parse_numeric df = Ok rows →
  Forall has_symbol (records df) ∧
  compute_unrounded src parse_numeric df = Ok (table src parse_numeric df) ∧
  rows = round_row <$> table src parse_numeric df.
Proof.
  unfold compute_portfolio.
  destruct (compute_unrounded src parse_numeric df) as [urows|e] eqn:H; cbn; [|done].
  intros [= <-]. apply compute_unrounded_inv in H as [Hsym ->]. done.
Qed.

End ComputeFacts.

Lemma fillna0_to_numeric_fin parse_numeric c :
  ∃ q, fillna0 (to_numeric parse_numeric c) = Fin q.
Proof.
  destruct c as [q|s|]; cbn; eauto.
  destruct (parse_numeric s); cbn; eauto.
Qed.

Lemma fillna0_coerces parse_numeric c :
  to_numeric parse_numeric c = NaN → fillna0 (to_numeric parse_numeric c) = Fin 0.
Proof. by intros ->. Qed.

Lemma table_consistent src parse_numeric df :
  Forall row_consistent (table src parse_numeric df).
Proof.
  unfold table. apply Forall_fmap, Forall_forall. intros r _.
  split; cbn; try done; apply fillna0_to_numeric_fin.
Qed.

Lemma invested_finite u : row_consistent u → ∃ b, invested u = Fin b.
Proof.
  intros [[q Hq] [b Hb] Hi _ _ _]. rewrite Hi, Hq, Hb. cbn. eauto.
Qed.

(** C6. The return of a row is its profit or loss divided by what was
    invested, times 100, when the invested amount is not zero, and is
    undefined (None from the lambda, NaN in the column) when it is zero;
    the division is never reached with a zero divisor, so that computing
    the table raises no ZeroDivisionError and puts no infinity or NaN of a
    division by zero in the column. *)
Theorem return_pct_guarded (src : PriceSource) (parse_numeric : string → option Q)
    (df : DataFrame) :
  (∀ profit_loss invested,
     ∃ v, return_pct_lambda profit_loss invested = Ok v ∧
          (feq0 invested = true → v = None) ∧
          (feq0 invested = false → v = Some (fmul (fdiv profit_loss invested) (Fin 100)))) ∧
  compute_portfolio src parse_numeric df ≠ Raise ZeroDivisionError ∧
  (Forall has_symbol (records df) →
     ∃ rows, compute_unrounded src parse_numeric df = Ok rows ∧
             compute_portfolio src parse_numeric df = Ok (round_row <$> rows)) ∧
  (∀ rows, compute_unrounded src parse_numeric df = Ok rows →
     Forall (λ u,
       (∃ b, invested u = Fin b) ∧
       (∀ b, invested u = Fin b → b == 0 → return_pct u = NaN) ∧
       (∀ a b, profit_loss u = Fin a → invested u = Fin b → ¬ b == 0 →
          ∃ q, return_pct u = Fin q ∧ q == a / b * 100) ∧
       (∀ b, invested u = Fin b → ¬ b == 0 → profit_loss u = NaN → return_pct u = NaN))
     rows).
Proof.
  split_and!.
  - intros pl inv. eexists. split; [apply return_pct_lambda_ok|].
    unfold truthy. split; by intros ->.
  - unfold compute_portfolio.
    destruct (compute_unrounded src parse_numeric df) as [rows|e] eqn:H; [done|].
    apply compute_unrounded_raise in H as [-> _]. done.
  - intros Hsym. eexists. split; [by apply compute_unrounded_ok|].
    by apply compute_portfolio_ok.
  - intros rows [_ ->]%compute_unrounded_inv.
    eapply Forall_impl; [apply table_consistent|].
    intros u Hu. pose proof (return_pct_eq u Hu) as Hr.
    split_and!.
    + by apply invested_finite.
    + intros b Hb H0. rewrite Hr, Hb.
      replace (truthy (Fin b)) with false; [done|].
      symmetry. by apply negb_false_iff, qzero_true.
    + intros a b Ha Hb H0. rewrite Hr, Ha, Hb, (proj2 (truthy_Fin b)) by done.
      cbn. rewrite (proj2 (qzero_false b)) by done. eexists. split; [done|].
      unfold qmul, qdiv. by rewrite !Qred_correct.
    + intros b Hb H0 Hpl. by rewrite Hr, Hpl, Hb, (proj2 (truthy_Fin b)).
Qed.

Example return_pct_rows :
  return_pct_lambda (Fin 30) (Fin 120) = Ok (Some (Fin 25)) ∧
  return_pct_lambda (Fin 30) (Fin 0) = Ok None ∧
  return_pct_lambda NaN (Fin 120) = Ok (Some NaN).
Proof. split_and!; reflexivity. Qed.

(** ** The loader *)

Lemma required_subseteq (C : gset string) :
  required ⊆ C ↔ "symbol" ∈ C ∧ "qty" ∈ C ∧ "buy_price" ∈ C.
Proof.
  unfold required. rewrite !union_subseteq, !singleton_subseteq_l. tauto.
Qed.

Lemma elem_of_required k :
  k ∈ required ↔ k = "symbol" ∨ k = "qty" ∨ k = "buy_price".
Proof. unfold required. rewrite !elem_of_union, !elem_of_singleton. tauto. Qed.

Lemma columns_of_records (l : list (gmap string cell)) k :
  k ∈ columns (DataFrame_of_records l) ↔ ∃ r, r ∈ l ∧ is_Some (r !! k).
Proof.
  cbn. rewrite elem_of_union_list. split.
  - intros (X & (r & -> & Hr)%list_elem_of_fmap & Hk). exists r.
    by rewrite <- elem_of_dom.
  - intros (r & Hr & Hk). exists (dom r). split; [|by apply elem_of_dom].
    apply list_elem_of_fmap. eauto.
Qed.

Lemma missing_key (l : list (gmap string cell)) :
  ¬ required ⊆ columns (DataFrame_of_records l) ↔
  ∃ k, k ∈ required ∧ ∀ r, r ∈ l → r !! k = None.
Proof.
  split.
  - intros Hn.
    assert (∃ k, k ∈ required ∧ k ∉ columns (DataFrame_of_records l)) as (k & Hk & Hc).
    { rewrite required_subseteq in Hn.
      destruct (decide ("symbol" ∈ columns (DataFrame_of_records l)));
        [|eexists; by rewrite elem_of_required; eauto].
      destruct (decide ("qty" ∈ columns (DataFrame_of_records l)));
        [|eexists; by rewrite elem_of_required; eauto].
      destruct (decide ("buy_price" ∈ columns (DataFrame_of_records l)));
        [|eexists; by rewrite elem_of_required; eauto].
      by destruct Hn. }
    exists k. split; [done|]. intros r Hr.
    apply eq_None_not_Some. intros Hs. apply Hc, columns_of_records. eauto.
  - intros (k & Hk & Hnone) Hsub.
    apply Hsub, columns_of_records in Hk as (r & Hr & Hs).
    rewrite (Hnone r Hr) in Hs. by destruct Hs.
Qed.

Section LoadFacts.
Context (read_frame : Path → result DataFrame) (path : Path).
Hypothesis is_json : Str.str (Str.lower (Str.chars (suffix path))) = ".json".

Lemma load_portfolio_json :
  load_portfolio read_frame path =
    match read_frame path with
    | Ok df => if bool_decide (required ⊆ columns df) then Ok df
               else Raise ValueError_MustContainKeys
    | Raise e => Raise (ValueError_FailedToRead e)
    end.
Proof.
  unfold load_portfolio. rewrite is_json. cbn.
  destruct (read_frame path) as [df|e]; cbn; [|done].
  by destruct (bool_decide _).
Qed.
End LoadFacts.

(** C7. For a .json path: loading fails with the missing-keys error
    (FormatError) exactly when the file was parsed and one of "symbol",
    "qty", "buy_price" is a key of none of its records; it fails with the
    read error (ParseError) when the file cannot be read or parsed; and a
    parsed file with the three keys loads, a value of qty or buy_price that
    is no number (such as "abc") being read as 0 in the row of the computed
    table, which keeps one row per record. *)
Theorem load_portfolio_lenient
    (read_frame : Path → result DataFrame) (path : Path)
    (src : PriceSource) (parse_numeric : string → option Q) (abc : string) :
  Str.str (Str.lower (Str.chars (suffix path))) = ".json" →
  parse_numeric abc = None →
  (load_portfolio read_frame path = Raise ValueError_MustContainKeys ↔
     ∃ df, read_frame path = Ok df ∧ ¬ required ⊆ columns df) ∧
  (∀ l, read_frame path = Ok (DataFrame_of_records l) →
     (load_portfolio read_frame path = Raise ValueError_MustContainKeys ↔
        ∃ k, k ∈ required ∧ ∀ r, r ∈ l → r !! k = None)) ∧
  (∀ e, read_frame path = Raise e →
     load_portfolio read_frame path = Raise (ValueError_FailedToRead e)) ∧
  (∀ df, read_frame path = Ok df → required ⊆ columns df →
     load_portfolio read_frame path = Ok df ∧
     (Forall has_symbol (records df) →
        ∃ rows, compute_portfolio src parse_numeric df = Ok rows ∧
                length rows = length (records df) ∧
                ∀ i r, records df !! i = Some r →
                  ∃ row, rows !! i = Some row ∧
                         (at_col "qty" r = CStr abc → qty row = Fin 0) ∧
                         (at_col "buy_price" r = CStr abc → buy_price row = Fin 0))).
Proof.
  intros Hjson Habc.
  assert (∀ df, read_frame path = Ok df →
            (load_portfolio read_frame path = Raise ValueError_MustContainKeys
             ↔ ¬ required ⊆ columns df)) as Hkeys.
  { intros df Hdf. rewrite load_portfolio_json, Hdf by done.
    case_bool_decide; split; done. }
  split_and!.
  - split.
    + intros H. rewrite load_portfolio_json in H by done.
      destruct (read_frame path) as [df|e] eqn:Hdf; [|done].
      exists df. split; [done|]. apply Hkeys; [done|].
      by rewrite load_portfolio_json, Hdf.
    + intros (df & Hdf & Hn). by apply (Hkeys df).
  - intros l Hdf. rewrite (Hkeys _ Hdf). apply missing_key.
  - intros e Hdf. by rewrite load_portfolio_json, Hdf.
  - intros df Hdf Hsub. split.
    + rewrite load_portfolio_json, Hdf by done. by rewrite bool_decide_eq_true_2.
    + intros Hsym. eexists. split; [by apply compute_portfolio_ok|].
      split; [unfold table; by rewrite !length_fmap|].
      intros i r Hr. unfold table. rewrite !list_lookup_fmap, Hr. cbn.
      eexists. split; [done|]. cbn. by split; intros ->; cbn; rewrite Habc.
Qed.

Lemma load_portfolio_lenient_witness :
  (load_portfolio
     (λ _, Ok (DataFrame_of_records [Sample.holding "ACME" (CStr "abc") (CNum 10)]))
     Sample.json_path = Raise ValueError_MustContainKeys ↔
     ∃ df, Ok (DataFrame_of_records [Sample.holding "ACME" (CStr "abc") (CNum 10)]) = Ok df
           ∧ ¬ required ⊆ columns df) ∧
  (∀ l, Ok (DataFrame_of_records [Sample.holding "ACME" (CStr "abc") (CNum 10)])
          = Ok (DataFrame_of_records l) →
     (load_portfolio
        (λ _, Ok (DataFrame_of_records [Sample.holding "ACME" (CStr "abc") (CNum 10)]))
        Sample.json_path = Raise ValueError_MustContainKeys ↔
        ∃ k, k ∈ required ∧ ∀ r, r ∈ l → r !! k = None)) ∧
  (∀ e, Ok (DataFrame_of_records [Sample.holding "ACME" (CStr "abc") (CNum 10)]) = Raise e →
     load_portfolio
       (λ _, Ok (DataFrame_of_records [Sample.holding "ACME" (CStr "abc") (CNum 10)]))
       Sample.json_path = Raise (ValueError_FailedToRead e)) ∧
  (∀ df, Ok (DataFrame_of_records [Sample.holding "ACME" (CStr "abc") (CNum 10)]) = Ok df →
     required ⊆ columns df →
     load_portfolio
       (λ _, Ok (DataFrame_of_records [Sample.holding "ACME" (CStr "abc") (CNum 10)]))
       Sample.json_path = Ok df ∧
     (Forall has_symbol (records df) →
        ∃ rows, compute_portfolio Sample.offline Sample.parse_digits df = Ok rows ∧
                length rows = length (records df) ∧
                ∀ i r, records df !! i = Some r →
                  ∃ row, rows !! i = Some row ∧
                         (at_col "qty" r = CStr "abc" → qty row = Fin 0) ∧
                         (at_col "buy_price" r = CStr "abc" → buy_price row = Fin 0))).
Proof.
  apply (load_portfolio_lenient
           (λ _, Ok (DataFrame_of_records [Sample.holding "ACME" (CStr "abc") (CNum 10)]))
           Sample.json_path Sample.offline Sample.parse_digits "abc");
    reflexivity.
Defined.

(** A file whose records all lack "buy_price" is refused; a file that
    cannot be parsed too; a record with qty "abc" is kept, with 0. *)
Example load_without_buy_price :
  load_portfolio
    (λ _, Ok (DataFrame_of_records
                [ {[ "symbol" := CStr "ACME"; "qty" := CNum 3 ]};
                  {[ "symbol" := CStr "TCS"; "qty" := CNum 1 ]} ]))
    Sample.json_path
  = Raise ValueError_MustContainKeys.
Proof. vm_compute. reflexivity. Qed.

Example load_unparsable :
  load_portfolio (λ _, Raise (ExternalError "Expecting value: line 1 column 1 (char 0)"))
    Sample.json_path
  = Raise (ValueError_FailedToRead (ExternalError "Expecting value: line 1 column 1 (char 0)")).
Proof. reflexivity. Qed.

Example load_other_suffix :
  load_portfolio (λ _, Ok (DataFrame_of_records []))
    {| path_name := "portfolio.csv"; suffix := ".csv" |}
  = Raise ValueError_OnlyJson.
Proof. reflexivity. Qed.

Example compute_with_abc :
  fmap (M:=list) qty <$> compute_portfolio (Sample.quotes [("ACME.NS", (Some (Fin 102), Some (Fin 100)))])
            Sample.parse_digits
            (DataFrame_of_records [Sample.holding "ACME" (CStr "abc") (CNum 10);
                                   Sample.holding "ACME" (CStr "12") (CNum 10)])
  = Ok [Fin 0; Fin 12].
Proof. vm_compute. reflexivity. Qed.

(** ** The summary *)

Lemma fsum_defined (l : list float) :
  Forall (λ x, isna x = false) l → fsum l = foldl fadd (Fin 0) l.
Proof.
  intros H. unfold fsum. f_equal.
  induction H as [|x l Hx _ IH]; [done|].
  rewrite filter_cons_True by done. by f_equal.
Qed.

Lemma filter_fmap_isna {A} (f : A → float) (l : list A) :
  filter (λ x, isna x = false) (f <$> l) = f <$> filter (λ r, isna (f r) = false) l.
Proof.
  induction l as [|r l IH]; [done|]. cbn [fmap list_fmap].
  destruct (decide (isna (f r) = false)) as [H|H].
  - rewrite !filter_cons_True by done. cbn. by f_equal.
  - by rewrite !filter_cons_False by done.
Qed.

Lemma fsum_skips_missing {A} (f : A → float) (l : list A) :
  fsum (f <$> l) = foldl fadd (Fin 0) (f <$> filter (λ r, isna (f r) = false) l).
Proof. unfold fsum. by rewrite filter_fmap_isna. Qed.

Lemma foldl_fadd_Fin (a : Q) (bs : list Q) :
  foldl fadd (Fin a) (Fin <$> bs) = Fin (foldl qadd a bs).
Proof. revert a. induction bs as [|b bs IH]; intros a; [done|]. cbn. apply IH. Qed.

Lemma fsum_Fin (bs : list Q) : fsum (Fin <$> bs) = Fin (foldl qadd 0 bs).
Proof.
  rewrite fsum_defined; [apply foldl_fadd_Fin|].
  apply Forall_fmap, Forall_forall. done.
Qed.

(** Where the totals are as claimed: the current value is summed over the
    rows that have one, and there is no total return when nothing was
    invested. *)
Lemma totals_where_claimed (rows : list Row) :
  total_current (print_summary rows) = spec_total_current_value rows ∧
  (feq0 (total_invested (print_summary rows)) = true →
     total_return_pct (print_summary rows) = None).
Proof.
  split.
  - cbn. apply fsum_skips_missing.
  - cbn. unfold truthy. by intros ->.
Qed.

(** C5, at a table with a holding whose fetch failed: 2 shares of ACME
    bought at 10 and quoted at 12, and 1 share of GONE bought at 50 and
    without a quote.  The row of GONE has no current value and no profit
    or loss, and the claim keeps it out of the three totals: 20 invested,
    a profit of 4.  [print_summary] sums the whole invested column and
    takes the profit or loss as the difference of the two totals: 70
    invested and a loss of 46, the unpriced holding booked as lost. *)
Theorem totals_count_unpriced_rows :
  ∃ rows,
    compute_portfolio (Sample.quotes [("ACME.NS", (Some (Fin 12), Some (Fin 10)))])
      Sample.parse_digits
      (DataFrame_of_records [Sample.holding "ACME" (CNum 2) (CNum 10);
                             Sample.holding "GONE" (CNum 1) (CNum 50)]) = Ok rows ∧
    current_value <$> rows = [Fin 24; NaN] ∧
    profit_loss <$> rows = [Fin 4; NaN] ∧
    invested <$> rows = [Fin 20; Fin 50] ∧
    total_invested (print_summary rows) = Fin 70 ∧
    spec_total_invested rows = Fin 20 ∧
    total_current (print_summary rows) = Fin 24 ∧
    spec_total_current_value rows = Fin 24 ∧
    total_pnl (print_summary rows) = Fin (-46) ∧
    spec_total_profit_loss rows = Fin 4 ∧
    total_invested (print_summary rows) ≠ spec_total_invested rows ∧
    total_pnl (print_summary rows) ≠ spec_total_profit_loss rows.
Proof.
  eexists. split_and!; first [vm_compute; reflexivity | vm_compute; discriminate].
Qed.

Lemma isna_fround2 x : isna (fround2 x) = isna x.
Proof. by destruct x. Qed.

Lemma valid_1d_round_row (l : list Row) :
  valid_1d (round_row <$> l) = round_row <$> valid_1d l.
Proof.
  unfold valid_1d. induction l as [|u l IH]; [done|]. cbn [fmap list_fmap].
  destruct (decide (isna (one_d_return_pct u) = false ∧ isna (current_value u) = false))
    as [H|H].
  - rewrite (filter_cons_True _ u) by done.
    rewrite filter_cons_True by (cbn; by rewrite !isna_fround2).
    cbn. by f_equal.
  - rewrite (filter_cons_False _ u) by done.
    rewrite filter_cons_False by (cbn; by rewrite !isna_fround2). done.
Qed.

(** C4, as the code has it.  The summary is computed from the table
    [compute_portfolio] returns, whose values are already rounded to two
    decimals: the totals are sums of rounded invested amounts and current
    values, and the overall one-day change is the mean of the rounded
    one-day returns weighted by the rounded current values.  The result is
    not rounded again. *)
Theorem summary_sums_rounded_rows (src : PriceSource) (parse_numeric : string → option Q)
    (df : DataFrame) (rows : list Row) :
  compute_portfolio src parse_numeric df = Ok rows →
  ∃ urows,
    compute_unrounded src parse_numeric df = Ok urows ∧
    rows = round_row <$> urows ∧
    total_invested (print_summary rows) = fsum ((λ u, fround2 (invested u)) <$> urows) ∧
    total_current (print_summary rows) = fsum ((λ u, fround2 (current_value u)) <$> urows) ∧
    total_pnl (print_summary rows)
      = fsub (fsum ((λ u, fround2 (current_value u)) <$> urows))
             (fsum ((λ u, fround2 (invested u)) <$> urows)) ∧
    overall_1d_change (print_summary rows)
      = match valid_1d urows with
        | [] => None
        | _ :: _ =>
            Some (fdiv (fsum ((λ u, fmul (fround2 (one_d_return_pct u))
                                         (fround2 (current_value u))) <$> valid_1d urows))
                       (fsum ((λ u, fround2 (current_value u)) <$> valid_1d urows)))
        end.
Proof.
  intros (_ & Hu & ->)%compute_portfolio_inv.
  exists (table src parse_numeric df). split; [done|]. split; [done|].
  unfold print_summary. cbn [total_invested total_current total_pnl overall_1d_change].
  rewrite valid_1d_round_row, <- !list_fmap_compose.
  split_and!; try done.
  by destruct (valid_1d (table src parse_numeric df)).
Qed.

Lemma summary_sums_rounded_rows_witness :
  ∃ rows,
    compute_portfolio
      (Sample.quotes [("AAA.NS", (Some (Fin (dec 1001 3)), Some (Fin 1)));
                      ("BBB.NS", (Some (Fin (dec 958 3)), Some (Fin 1)))])
      Sample.parse_digits
      (DataFrame_of_records [Sample.holding "AAA" (CNum 1) (CNum (dec 1006 3));
                             Sample.holding "BBB" (CNum 1) (CNum (dec 1006 3))]) = Ok rows ∧
    ∃ urows,
      compute_unrounded
        (Sample.quotes [("AAA.NS", (Some (Fin (dec 1001 3)), Some (Fin 1)));
                        ("BBB.NS", (Some (Fin (dec 958 3)), Some (Fin 1)))])
        Sample.parse_digits
        (DataFrame_of_records [Sample.holding "AAA" (CNum 1) (CNum (dec 1006 3));
                               Sample.holding "BBB" (CNum 1) (CNum (dec 1006 3))])
        = Ok urows ∧
      rows = round_row <$> urows ∧
      total_invested (print_summary rows) = fsum ((λ u, fround2 (invested u)) <$> urows) ∧
      total_current (print_summary rows) = fsum ((λ u, fround2 (current_value u)) <$> urows) ∧
      total_pnl (print_summary rows)
        = fsub (fsum ((λ u, fround2 (current_value u)) <$> urows))
               (fsum ((λ u, fround2 (invested u)) <$> urows)) ∧
      overall_1d_change (print_summary rows)
        = match valid_1d urows with
          | [] => None
          | _ :: _ =>
              Some (fdiv (fsum ((λ u, fmul (fround2 (one_d_return_pct u))
                                           (fround2 (current_value u))) <$> valid_1d urows))
                         (fsum ((λ u, fround2 (current_value u)) <$> valid_1d urows)))
          end.
Proof.
  eexists. split; [vm_compute; reflexivity|].
  apply (summary_sums_rounded_rows
           (Sample.quotes [("AAA.NS", (Some (Fin (dec 1001 3)), Some (Fin 1)));
                           ("BBB.NS", (Some (Fin (dec 958 3)), Some (Fin 1)))])
           Sample.parse_digits
           (DataFrame_of_records [Sample.holding "AAA" (CNum 1) (CNum (dec 1006 3));
                                  Sample.holding "BBB" (CNum 1) (CNum (dec 1006 3))])).
  vm_compute. reflexivity.
Defined.

(** C4 as stated fails: summing the rounded rows and rounding the sum of
    the unrounded rows give different totals (2.02 against 2.01) and
    different overall changes (-2.01 against -2.00). *)
Lemma summary_of_rounded_rows_differs :
  ∃ rows urows,
    compute_portfolio
      (Sample.quotes [("AAA.NS", (Some (Fin (dec 1001 3)), Some (Fin 1)));
                      ("BBB.NS", (Some (Fin (dec 958 3)), Some (Fin 1)))])
      Sample.parse_digits
      (DataFrame_of_records [Sample.holding "AAA" (CNum 1) (CNum (dec 1006 3));
                             Sample.holding "BBB" (CNum 1) (CNum (dec 1006 3))]) = Ok rows ∧
    compute_unrounded
      (Sample.quotes [("AAA.NS", (Some (Fin (dec 1001 3)), Some (Fin 1)));
                      ("BBB.NS", (Some (Fin (dec 958 3)), Some (Fin 1)))])
      Sample.parse_digits
      (DataFrame_of_records [Sample.holding "AAA" (CNum 1) (CNum (dec 1006 3));
                             Sample.holding "BBB" (CNum 1) (CNum (dec 1006 3))]) = Ok urows ∧
    invested <$> urows = [Fin (dec 1006 3); Fin (dec 1006 3)] ∧
    invested <$> rows = [Fin (dec 101 2); Fin (dec 101 2)] ∧
    total_invested (print_summary rows) = Fin (dec 202 2) ∧
    total_invested (round_summary (print_summary urows)) = Fin (dec 201 2) ∧
    overall_1d_change (print_summary rows) = Some (Fin (- 983 # 490)) ∧
    fround2 <$> overall_1d_change (print_summary rows) = Some (Fin (dec (-201) 2)) ∧
    overall_1d_change (print_summary urows) = Some (Fin (- 7847 # 3918)) ∧
    overall_1d_change (round_summary (print_summary urows)) = Some (Fin (-2)) ∧
    total_invested (print_summary rows)
      ≠ total_invested (round_summary (print_summary urows)) ∧
    fround2 <$> overall_1d_change (print_summary rows)
      ≠ overall_1d_change (round_summary (print_summary urows)).
Proof.
  do 2 eexists. split_and!; first [vm_compute; reflexivity | vm_compute; discriminate].
Qed.

(** *** The overall one-day change *)

Lemma valid_1d_qualifying (df : list Row) :
  Forall (λ r, finite_or_missing (one_d_return_pct r) ∧ finite_or_missing (current_value r)) df →
  (λ r, fmul (one_d_return_pct r) (current_value r)) <$> valid_1d df
    = Fin <$> ((λ p, qmul p.1 p.2) <$> qualifying df) ∧
  current_value <$> valid_1d df = Fin <$> (snd <$> qualifying df).
Proof.
  unfold valid_1d, qualifying.
  induction 1 as [|r df [Hx Hw] _ [IH1 IH2]]; [done|].
  destruct (one_d_return_pct r) as [x| | |] eqn:Ex; try done;
    destruct (current_value r) as [w| | |] eqn:Ew; try done.
  - rewrite filter_cons_True by (by rewrite Ex, Ew).
    cbn. rewrite Ex, Ew. cbn. by rewrite IH1, IH2.
  - rewrite filter_cons_False by (rewrite Ex, Ew; by intros []).
    cbn. by rewrite Ex, Ew.
  - rewrite filter_cons_False by (rewrite Ex; by intros []).
    cbn. by rewrite Ex.
  - rewrite filter_cons_False by (rewrite Ex; by intros []).
    cbn. by rewrite Ex.
Qed.

(** What [print_summary] returns, on rows without infinities: [None] when
    no row qualifies, and otherwise the quotient of the weighted sum by the
    sum of the weights, whatever that sum is. *)
Lemma overall_1d_change_quotient (df : list Row) :
  Forall (λ r, finite_or_missing (one_d_return_pct r) ∧ finite_or_missing (current_value r)) df →
  overall_1d_change (print_summary df)
    = match qualifying df with
      | [] => None
      | _ :: _ => Some (fdiv (Fin (weighted_sum (qualifying df)))
                             (Fin (weight_sum (qualifying df))))
      end.
Proof.
  intros [H1 H2]%valid_1d_qualifying. cbn.
  rewrite H1, H2, !fsum_Fin.
  assert (length (valid_1d df) = length (qualifying df)) as Hlen.
  { apply (f_equal length) in H2. by rewrite !length_fmap in H2. }
  by destruct (valid_1d df), (qualifying df).
Qed.

(** Where the code and the spec agree: no qualifying row, or weights whose
    sum is not zero. *)
Lemma overall_1d_change_weighted_mean (df : list Row) :
  Forall (λ r, finite_or_missing (one_d_return_pct r) ∧ finite_or_missing (current_value r)) df →
  qualifying df = [] ∨ ¬ weight_sum (qualifying df) == 0 →
  overall_1d_change (print_summary df)
    = Fin <$> spec_overall_one_day_change_pct (qualifying df).
Proof.
  intros Hfin Hw. rewrite overall_1d_change_quotient by done.
  unfold spec_overall_one_day_change_pct.
  destruct (qualifying df) as [|p l] eqn:E; [done|].
  destruct Hw as [|Hw]; [done|].
  cbn [fdiv]. by rewrite (proj2 (qzero_false _) Hw).
Qed.

(** The example of the spec: 100 at +2.0 and 300 at -1.0 give -0.25. *)
Example overall_1d_change_example :
  spec_overall_one_day_change_pct [(2, 100); (-1, 300)] = Some (dec (-25) 2) ∧
  ∀ a b : Row,
    one_d_return_pct a = Fin 2 → current_value a = Fin 100 →
    one_d_return_pct b = Fin (-1) → current_value b = Fin 300 →
    overall_1d_change (print_summary [a; b]) = Some (Fin (dec (-25) 2)).
Proof.
  split; [reflexivity|]. intros a b Ha1 Ha2 Hb1 Hb2.
  rewrite overall_1d_change_quotient.
  - unfold qualifying. cbn. rewrite Ha1, Ha2, Hb1, Hb2. reflexivity.
  - repeat constructor; by rewrite ?Ha1, ?Ha2, ?Hb1, ?Hb2.
Qed.

(** C1, at a table whose only priced holding has quantity 0.  The row
    qualifies, its weight is 0, and the claim asks for an undefined
    result; [print_summary] divides 0 by 0 and returns NaN, which is not
    [None]: the indicator step switches the bulb on and sets it to white. *)
Theorem overall_1d_change_zero_weights :
  ∃ rows,
    compute_portfolio (Sample.quotes [("ACME.NS", (Some (Fin 102), Some (Fin 100)))])
      Sample.parse_digits
      (DataFrame_of_records [Sample.holding "ACME" (CNum 0) (CNum 10)]) = Ok rows ∧
    qualifying rows = [(2, 0)] ∧
    weight_sum (qualifying rows) = 0 ∧
    spec_overall_one_day_change_pct (qualifying rows) = None ∧
    overall_1d_change (print_summary rows) = Some NaN ∧
    cycle (Sample.quotes [("ACME.NS", (Some (Fin 102), Some (Fin 100)))])
      Sample.parse_digits Sample.reliable Sample.bulb_off
      (DataFrame_of_records [Sample.holding "ACME" (CNum 0) (CNum 10)])
    = Ok ({| is_on := true; shines := White; calls := [turn_on; set_white] |},
          [Bulb_WHITE_Neutral]).
Proof. eexists. split_and!; vm_compute; reflexivity. Qed.

(** With weights of both signs the quotient can be an infinity. *)
Example overall_1d_change_infinite :
  ∀ a b : Row,
    one_d_return_pct a = Fin 2 → current_value a = Fin 100 →
    one_d_return_pct b = Fin (-1) → current_value b = Fin (-100) →
    overall_1d_change (print_summary [a; b]) = Some PInf.
Proof.
  intros a b Ha1 Ha2 Hb1 Hb2. rewrite overall_1d_change_quotient.
  - unfold qualifying. cbn. rewrite Ha1, Ha2, Hb1, Hb2. reflexivity.
  - repeat constructor; by rewrite ?Ha1, ?Ha2, ?Hb1, ?Hb2.
Qed.

(** * Further properties *)

(** ** Symbol normalisation, continued *)

Section NormalizeMore.
Import Str.

Lemma isspace_upper_char c : isspace (upper_char c) = isspace c.
Proof. by destruct c as [[] [] [] [] [] [] [] []]. Qed.

Lemma isspace_lower_char c : isspace (lower_char c) = isspace c.
Proof. by destruct c as [[] [] [] [] [] [] [] []]. Qed.

Lemma upper_char_idemp c : upper_char (upper_char c) = upper_char c.
Proof. by destruct c as [[] [] [] [] [] [] [] []]. Qed.

Lemma upper_lower_char c : upper_char (lower_char c) = upper_char c.
Proof. by destruct c as [[] [] [] [] [] [] [] []]. Qed.

Lemma upper_idemp s : upper (upper s) = upper s.
Proof.
  unfold upper. rewrite <- list_fmap_compose. apply list_fmap_ext.
  intros _ c _. apply upper_char_idemp.
Qed.

Lemma upper_lower s : upper (lower s) = upper s.
Proof.
  unfold upper, lower. rewrite <- list_fmap_compose. apply list_fmap_ext.
  intros _ c _. apply upper_lower_char.
Qed.

(** Stripping commutes with a change of case. *)
Lemma lstrip_fmap (f : ascii → ascii) s :
  (∀ c, isspace (f c) = isspace c) → lstrip (f <$> s) = f <$> lstrip s.
Proof.
  intros Hf. induction s as [|c s IH]; [done|].
  cbn. rewrite Hf. by destruct (isspace c).
Qed.

Lemma strip_fmap (f : ascii → ascii) s :
  (∀ c, isspace (f c) = isspace c) → strip (f <$> s) = f <$> strip s.
Proof.
  intros Hf. unfold strip, rstrip.
  by rewrite !lstrip_fmap, <- !fmap_reverse, !lstrip_fmap, fmap_reverse.
Qed.

Lemma lstrip_spaces l s :
  Forall (λ c, isspace c = true) l → lstrip (l ++ s) = lstrip s.
Proof. induction 1 as [|c l Hc _ IH]; [done|]. cbn. by rewrite Hc. Qed.

Lemma lstrip_all_spaces l : Forall (λ c, isspace c = true) l → lstrip l = [].
Proof. intros H. rewrite <- (app_nil_r l). by rewrite lstrip_spaces. Qed.

Lemma rstrip_spaces s r :
  Forall (λ c, isspace c = true) r → rstrip (s ++ r) = rstrip s.
Proof.
  intros H. unfold rstrip. rewrite reverse_app, lstrip_spaces; [done|].
  by apply Forall_reverse.
Qed.

Lemma lstrip_app s r :
  lstrip s ≠ [] → lstrip (s ++ r) = lstrip s ++ r.
Proof.
  induction s as [|c s IH]; [done|]. cbn.
  destruct (isspace c); [apply IH | done].
Qed.

Lemma strip_spaces l s r :
  Forall (λ c, isspace c = true) l → Forall (λ c, isspace c = true) r →
  strip (l ++ s ++ r) = strip s.
Proof.
  intros Hl Hr. unfold strip. rewrite lstrip_spaces by done.
  destruct (decide (lstrip s = [])) as [He|Hne].
  - rewrite He.
    destruct (lstrip_split s) as (l' & Hs & Hl' & _). rewrite He, app_nil_r in Hs. subst l'.
    rewrite lstrip_all_spaces; [done|]. by apply Forall_app.
  - rewrite lstrip_app by done. by apply rstrip_spaces.
Qed.

Lemma normalize_chars_eq s :
  normalize_chars s = with_NS (upper (strip s)) ≫= encode_amp.
Proof.
  unfold normalize_chars, with_NS.
  change (chars "&") with ["&"%char]. rewrite replace_char.
  unfold endswith, AUTO_APPEND_NS. cbn [andb].
  by destruct (decide _) as [H|H];
    [rewrite bool_decide_eq_true_2 | rewrite bool_decide_eq_false_2].
Qed.

Lemma lstrip_id s : (∀ c, head s = Some c → isspace c = false) → lstrip s = s.
Proof. destruct s as [|c s]; [done|]. intros H. cbn. by rewrite (H c). Qed.

Lemma strip_id s : space_free_ends s → strip s = s.
Proof.
  intros [Hh Hl]. unfold strip, rstrip. rewrite (lstrip_id s) by done.
  rewrite lstrip_id; [apply reverse_involutive|].
  intros c. rewrite head_reverse. apply Hl.
Qed.

Lemma encode_amp_id s : "&"%char ∉ s → s ≫= encode_amp = s.
Proof.
  induction s as [|c s IH]; [done|]. intros Hn. cbn.
  unfold encode_amp at 1. rewrite decide_False.
  - cbn. f_equal. apply IH. intros ?. apply Hn. by right.
  - intros ->. apply Hn. by left.
Qed.

(** A symbol in normal form is left as it is. *)
Lemma normalize_chars_normal_form s : normal_form s → normalize_chars s = s.
Proof.
  intros (Hends & Hup & Hsuf & Hamp).
  rewrite normalize_chars_eq, strip_id, Hup by done.
  unfold with_NS. rewrite decide_True by done. by apply encode_amp_id.
Qed.

Lemma encode_amp_no_amp s : "&"%char ∉ s ≫= encode_amp.
Proof.
  intros (c & Hin & _)%list_elem_of_bind.
  unfold encode_amp in Hin. case_decide as Hc.
  - repeat (apply elem_of_cons in Hin as [Hin|Hin]; [discriminate|]).
    by apply elem_of_nil in Hin.
  - apply list_elem_of_singleton in Hin. congruence.
Qed.

Lemma upper_encode_amp s : upper s = s → upper (s ≫= encode_amp) = s ≫= encode_amp.
Proof.
  unfold upper. induction s as [|c s IH]; [done|].
  intros [= Hc Hs]. cbn. rewrite fmap_app, IH by done. f_equal.
  unfold encode_amp. case_decide; cbn; [done | by rewrite Hc].
Qed.

Lemma with_NS_suffix u : ∃ t, with_NS u = t ++ chars ".NS".
Proof.
  unfold with_NS. case_decide as H; [|by eexists].
  destruct H as [t ->]. by eexists.
Qed.

Lemma upper_with_NS u : upper u = u → upper (with_NS u) = with_NS u.
Proof.
  intros H. unfold with_NS. case_decide; [done|].
  unfold upper in *. by rewrite fmap_app, H.
Qed.

Lemma head_with_NS u c :
  (∀ c, head u = Some c → isspace c = false) →
  head (with_NS u ≫= encode_amp) = Some c → isspace c = false.
Proof.
  intros Hu. unfold with_NS. case_decide.
  - destruct u as [|a u]; [done|]. cbn. unfold encode_amp at 1.
    case_decide; cbn; intros [= <-]; [done | by apply Hu].
  - destruct u as [|a u]; cbn; [by intros [= <-]|]. unfold encode_amp at 1.
    case_decide; cbn; intros [= <-]; [done | by apply Hu].
Qed.

(** What [normalize_symbol] returns is in normal form. *)
Lemma normalize_chars_is_normal_form s : normal_form (normalize_chars s).
Proof.
  rewrite normalize_chars_eq.
  destruct (strip_split s) as (l & r & _ & _ & _ & Hh & _).
  pose proof (with_NS_suffix (upper (strip s))) as [t Ht].
  assert (with_NS (upper (strip s)) ≫= encode_amp = (t ≫= encode_amp) ++ chars ".NS") as Hn.
  { by rewrite Ht, bind_app. }
  split_and!.
  - split.
    + intros c. apply head_with_NS. intros a. unfold upper.
      destruct (strip s) as [|c0 u]; cbn; [done|].
      intros [= <-]. rewrite isspace_upper_char. by apply Hh.
    + rewrite Hn. intros c. rewrite last_app. cbn. by intros [= <-].
  - apply upper_encode_amp, upper_with_NS, upper_idemp.
  - rewrite Hn. by apply suffix_app_r.
  - apply encode_amp_no_amp.
Qed.

End NormalizeMore.

Lemma str_chars s : Str.str (Str.chars s) = s.
Proof. apply String.string_of_list_ascii_of_string. Qed.

(** X1. Normalising twice is normalising once, and the symbols that
    [normalize_symbol] leaves unchanged are exactly those in normal form:
    no whitespace at either end, no lower-case letter, ending with ".NS",
    without ampersand. *)
Theorem normalize_symbol_idempotent (raw : string) :
  Forall Str.is_ascii (Str.chars raw) →
  normalize_symbol (normalize_symbol raw) = normalize_symbol raw ∧
  normal_form (Str.chars (normalize_symbol raw)) ∧
  (normalize_symbol raw = raw ↔ normal_form (Str.chars raw)).
Proof.
  intros _. unfold normalize_symbol. rewrite !chars_str.
  split_and!.
  - f_equal. apply normalize_chars_normal_form, normalize_chars_is_normal_form.
  - apply normalize_chars_is_normal_form.
  - split.
    + intros H. rewrite <- H at 1. rewrite chars_str.
      apply normalize_chars_is_normal_form.
    + intros H. rewrite normalize_chars_normal_form by done. apply str_chars.
Qed.

Lemma normalize_symbol_idempotent_witness :
  normalize_symbol (normalize_symbol " m&m ") = normalize_symbol " m&m " ∧
  normal_form (Str.chars (normalize_symbol " m&m ")) ∧
  (normalize_symbol " m&m " = " m&m " ↔ normal_form (Str.chars " m&m ")).
Proof.
  apply (normalize_symbol_idempotent " m&m ").
  unfold Str.is_ascii. repeat constructor.
Defined.

(** X2. Symbols that differ only in surrounding whitespace or in the case
    of their letters are normalised to the same ticker. *)
Theorem normalize_symbol_insensitive (raw : string) (l r : list ascii) :
  Forall Str.is_ascii (Str.chars raw) →
  Forall (λ c, Str.isspace c = true) l → Forall (λ c, Str.isspace c = true) r →
  normalize_symbol (Str.str (l ++ Str.chars raw ++ r)) = normalize_symbol raw ∧
  normalize_symbol (Str.str (Str.upper (Str.chars raw))) = normalize_symbol raw ∧
  normalize_symbol (Str.str (Str.lower (Str.chars raw))) = normalize_symbol raw.
Proof.
  intros _ Hl Hr. unfold normalize_symbol. rewrite !chars_str, !normalize_chars_eq.
  split_and!; f_equal; f_equal; f_equal.
  - by rewrite strip_spaces.
  - unfold Str.upper at 2. rewrite strip_fmap by apply isspace_upper_char.
    apply upper_idemp.
  - unfold Str.lower. rewrite strip_fmap by apply isspace_lower_char.
    apply upper_lower.
Qed.

Lemma normalize_symbol_insensitive_witness :
  normalize_symbol (Str.str (Str.chars "  " ++ Str.chars "Acme" ++ Str.chars " "))
    = normalize_symbol "Acme" ∧
  normalize_symbol (Str.str (Str.upper (Str.chars "Acme"))) = normalize_symbol "Acme" ∧
  normalize_symbol (Str.str (Str.lower (Str.chars "Acme"))) = normalize_symbol "Acme".
Proof.
  apply (normalize_symbol_insensitive "Acme" (Str.chars "  ") (Str.chars " "));
    unfold Str.is_ascii; repeat constructor.
Defined.

(** ** Rounding, continued *)

Lemma rint_integer (y : Q) (z : Z) : y == inject_Z z → rint y = z.
Proof.
  destruct y as [n d]. unfold Qeq, rint. cbn. intros H.
  assert (n = z * Z.pos d)%Z as -> by lia.
  rewrite Z.div_mul, Z.mod_mul by done. reflexivity.
Qed.

Lemma round2_idemp q : round2 (round2 q) = round2 q.
Proof.
  unfold round2. set (z := rint (q * 100)).
  rewrite (rint_integer _ z); [done|]. rewrite Qred_correct. field.
Qed.

Lemma fround2_idemp x : fround2 (fround2 x) = fround2 x.
Proof. destruct x; cbn; [|done..]. by rewrite round2_idemp. Qed.

Lemma round_row_idemp r : round_row (round_row r) = round_row r.
Proof. unfold round_row. cbn. by rewrite !fround2_idemp. Qed.

(** ** The price fetcher, continued *)

Lemma complete_condition (last_price prev_close : option float) :
  negb (otruthy prev_close) || negb (otruthy last_price) || oeq0 prev_close
    = negb (complete (last_price, prev_close)).
Proof.
  unfold complete. cbn.
  destruct prev_close as [p|], last_price as [l|]; cbn; unfold truthy;
    repeat match goal with |- context [feq0 ?x] => destruct (feq0 x) end; done.
Qed.

Lemma try_quote_result l p handler :
  try_except (quote_result l p) handler = quote_result l p.
Proof. by destruct (quote_result_ok l p) as [r ->]. Qed.

Lemma fetch_of_resolved src sym l p :
  resolve_quote src sym = Ok (l, p) → fetch_yfinance_price src sym = quote_result l p.
Proof.
  intros H. unfold fetch_yfinance_price. rewrite H. apply try_quote_result.
Qed.

Lemma truthy_not_zero x : truthy x = true → feq0 x = false.
Proof. unfold truthy. by intros ?%negb_true_iff. Qed.

(** X3. When the fast quote has a last price and a previous close, both
    non-zero, the fetcher answers from it alone: neither the history nor
    the detailed quote is asked for, whatever they would give or raise. *)
Theorem fetch_complete_fast_quote (src : PriceSource) (sym : string)
    (q : option float * option float) :
  fast_info src sym = Ok q → complete q = true →
  fetch_yfinance_price src sym = quote_result q.1 q.2.
Proof.
  destruct q as [l p]. intros Hq Hc. apply fetch_of_resolved.
  unfold resolve_quote. rewrite Hq. cbn.
  rewrite complete_condition, Hc. cbn.
  unfold complete in Hc. cbn in Hc. apply andb_true_iff in Hc as [_ Hp].
  destruct p as [p|]; [|done]. cbn in *.
  by rewrite Hp, (truthy_not_zero p Hp).
Qed.

Lemma fetch_complete_fast_quote_witness :
  fetch_yfinance_price
    {| fast_info _ := Ok (Some (Fin 102), Some (Fin 100));
       history_close _ := Raise (ExternalError "not asked");
       info_previousClose _ := Raise (ExternalError "not asked") |} "ACME.NS"
  = quote_result (Some (Fin 102), Some (Fin 100)).1 (Some (Fin 102), Some (Fin 100)).2.
Proof.
  apply (fetch_complete_fast_quote
           {| fast_info _ := Ok (Some (Fin 102), Some (Fin 100));
              history_close _ := Raise (ExternalError "not asked");
              info_previousClose _ := Raise (ExternalError "not asked") |}
           "ACME.NS" (Some (Fin 102), Some (Fin 100))); reflexivity.
Defined.

(** X4. When the fast quote lacks a price, or has one that is zero, and
    the history holds at least two closes, the last two closes are the
    quote (provided the earlier one is not zero): what the fast quote gave
    is dropped, and the detailed quote is not asked for. *)
Theorem fetch_history_fallback (src : PriceSource) (sym : string)
    (q : option float * option float) (older : list float) (prev last : float) :
  fast_info src sym = Ok q → complete q = false →
  history_close src sym = Ok (older ++ [prev; last]) → truthy prev = true →
  fetch_yfinance_price src sym = quote_result (Some last) (Some prev).
Proof.
  destruct q as [l p]. intros Hq Hc Hh Hp. apply fetch_of_resolved.
  unfold resolve_quote. rewrite Hq. cbn.
  rewrite complete_condition, Hc. cbn. rewrite Hh. cbn.
  rewrite reverse_app. cbn.
  by rewrite Hp, (truthy_not_zero prev Hp).
Qed.

Lemma fetch_history_fallback_witness :
  fetch_yfinance_price
    {| fast_info _ := Ok (Some (Fin 50), None);
       history_close _ := Ok ([Fin 40] ++ [Fin 50; Fin 51]);
       info_previousClose _ := Raise (ExternalError "not asked") |} "ACME.NS"
  = quote_result (Some (Fin 51)) (Some (Fin 50)).
Proof.
  apply (fetch_history_fallback
           {| fast_info _ := Ok (Some (Fin 50), None);
              history_close _ := Ok ([Fin 40] ++ [Fin 50; Fin 51]);
              info_previousClose _ := Raise (ExternalError "not asked") |}
           "ACME.NS" (Some (Fin 50), None) [Fin 40] (Fin 50) (Fin 51)); reflexivity.
Defined.

(** X5. A failure in the fallback chain loses the price as well: when the
    fast quote is incomplete and asking for the history raises, the
    fetcher returns no price and no return, even if the fast quote had a
    last price. *)
Theorem fetch_fallback_failure (src : PriceSource) (sym : string)
    (q : option float * option float) (e : exn) :
  fast_info src sym = Ok q → complete q = false →
  history_close src sym = Raise e →
  fetch_yfinance_price src sym = Ok (None, None).
Proof.
  destruct q as [l p]. intros Hq Hc Hh.
  unfold fetch_yfinance_price, resolve_quote. rewrite Hq. cbn.
  rewrite complete_condition, Hc. cbn. by rewrite Hh.
Qed.

Lemma fetch_fallback_failure_witness :
  fetch_yfinance_price
    {| fast_info _ := Ok (Some (Fin 50), None);
       history_close _ := Raise (ExternalError "timed out");
       info_previousClose _ := Ok (Some (Fin 49)) |} "ACME.NS"
  = Ok (None, None).
Proof.
  apply (fetch_fallback_failure
           {| fast_info _ := Ok (Some (Fin 50), None);
              history_close _ := Raise (ExternalError "timed out");
              info_previousClose _ := Ok (Some (Fin 49)) |}
           "ACME.NS" (Some (Fin 50), None) (ExternalError "timed out")); reflexivity.
Defined.

(** What the last lines of the fetcher return. *)
Lemma quote_result_shape l p price ret :
  quote_result l p = Ok (price, ret) →
  (∀ v, price = Some v → truthy v = true) ∧
  (is_Some ret → is_Some price) ∧
  fround2 <$> ret = ret.
Proof.
  unfold quote_result.
  destruct (one_day_return_ok l p) as [dr Hdr]. rewrite Hdr. cbn.
  intros [= <- <-]. split_and!.
  - destruct l as [v|]; cbn; [|done].
    destruct (truthy v) eqn:E; [|done]. by intros ? [= <-].
  - intros Hret. assert (is_Some dr) as [d ->].
    { destruct (otruthy dr); [|by destruct Hret]. destruct dr; [eauto | by destruct Hret]. }
    unfold one_day_return in Hdr.
    destruct l as [v|], p as [p|]; cbn in *; try done.
    destruct (truthy v); cbn in *; [eauto | done].
  - destruct (otruthy dr); [|done]. destruct dr as [d|]; [|done].
    cbn. by rewrite fround2_idemp.
Qed.

Lemma fetch_yfinance_price_shape src sym price ret :
  fetch_yfinance_price src sym = Ok (price, ret) →
  (∀ v, price = Some v → truthy v = true) ∧
  (is_Some ret → is_Some price) ∧
  fround2 <$> ret = ret.
Proof.
  unfold fetch_yfinance_price.
  destruct (resolve_quote src sym) as [[l p]|e] eqn:Hr; cbn.
  - rewrite try_quote_result. apply quote_result_shape.
  - intros [= <- <-]. split_and!; done.
Qed.

(** X6. Whatever the provider answers, the fetcher returns; a price it
    returns is never zero (a zero is reported as no price), it returns a
    one-day return only together with a price, and that return has two
    decimals: rounding it again changes nothing. *)
Theorem fetch_result_shape (src : PriceSource) (sym : string) :
  ∃ price ret,
    fetch_yfinance_price src sym = Ok (price, ret) ∧
    (∀ v, price = Some v → truthy v = true) ∧
    (is_Some ret → is_Some price) ∧
    fround2 <$> ret = ret.
Proof.
  pose proof (fetch_yfinance_price_ok src sym) as Hok.
  destruct (fetched src sym) as [price ret].
  exists price, ret. split; [done|]. by apply (fetch_yfinance_price_shape src sym).
Qed.

(** X7. As long as the provider answers alike whenever it is asked about
    a symbol, the two dicts depend on the set of symbols only: neither the
    order of the list nor a symbol listed twice changes them. *)
Theorem fetch_live_prices_set (src : PriceSource) (symbols symbols' : list string) :
  list_to_set symbols =@{gset string} list_to_set symbols' →
  fetch_live_prices src symbols = fetch_live_prices src symbols'.
Proof.
  intros Hset. unfold fetch_live_prices. rewrite !fetch_loop_ok.
  assert (∀ k, k ∈ symbols ↔ k ∈ symbols') as Hin.
  { intros k. by rewrite <- !(elem_of_list_to_set (C:=gset string)), Hset. }
  f_equal. f_equal; apply map_eq; intros k; rewrite !lookup_foldl_insert;
    destruct (decide (k ∈ symbols)) as [H|H];
    [rewrite decide_True | rewrite decide_False | rewrite decide_True | rewrite decide_False];
    try done; by rewrite <- Hin.
Qed.

Lemma fetch_live_prices_set_witness :
  fetch_live_prices (Sample.quotes [("ACME.NS", (Some (Fin 102), Some (Fin 100)))])
                    ["ACME.NS"; "GONE.NS"; "ACME.NS"]
  = fetch_live_prices (Sample.quotes [("ACME.NS", (Some (Fin 102), Some (Fin 100)))])
                      ["GONE.NS"; "ACME.NS"].
Proof.
  apply (fetch_live_prices_set
           (Sample.quotes [("ACME.NS", (Some (Fin 102), Some (Fin 100)))])
           ["ACME.NS"; "GONE.NS"; "ACME.NS"] ["GONE.NS"; "ACME.NS"]).
  vm_compute. reflexivity.
Defined.

(** ** The portfolio table, continued *)

Section TableFacts.
Context (src : PriceSource) (parse_numeric : string → option Q) (df : DataFrame).

Lemma dicts_lookup (r : gmap string cell) :
  r ∈ records df →
  map_dict (dicts src df).1 (normalize_symbol (symbol_of r))
    = default NaN (fetched src (normalize_symbol (symbol_of r))).1 ∧
  map_dict (dicts src df).2 (normalize_symbol (symbol_of r))
    = default NaN (fetched src (normalize_symbol (symbol_of r))).2.
Proof.
  intros Hr. unfold map_dict, dicts. cbn.
  rewrite !lookup_foldl_insert, !decide_True.
  - split; by destruct (fetched src _) as [[?|] [?|]].
  - apply list_elem_of_fmap. eauto.
  - apply list_elem_of_fmap. eauto.
Qed.

Lemma table_lookup i r :
  records df !! i = Some r →
  (round_row <$> table src parse_numeric df) !! i
    = Some (round_row (row_of parse_numeric (dicts src df).1 (dicts src df).2 r)).
Proof. intros Hr. unfold table. by rewrite !list_lookup_fmap, Hr. Qed.

End TableFacts.

Lemma compute_portfolio_raise src parse_numeric df e :
  compute_portfolio src parse_numeric df = Raise e →
  e = AttributeError ∧ ¬ Forall has_symbol (records df).
Proof.
  unfold compute_portfolio.
  destruct (compute_unrounded src parse_numeric df) as [rows|e'] eqn:H; [done|].
  cbn. intros [= <-]. by apply compute_unrounded_raise in H.
Qed.

(** X8. Computing the table fails exactly when the symbol of some record
    is missing or is not a string, and then with the AttributeError of
    [normalize_symbol], whatever the other records hold; no failure of the
    provider and no value of qty or buy_price makes it fail. *)
Theorem compute_portfolio_raises_iff (src : PriceSource)
    (parse_numeric : string → option Q) (df : DataFrame) :
  (∀ e, compute_portfolio src parse_numeric df = Raise e ↔
        e = AttributeError ∧ ¬ Forall has_symbol (records df)) ∧
  ((∃ rows, compute_portfolio src parse_numeric df = Ok rows) ↔
     Forall has_symbol (records df)).
Proof.
  split.
  - intros e. split; [apply compute_portfolio_raise|]. intros [-> Hn].
    destruct (compute_portfolio src parse_numeric df) as [rows|e] eqn:H.
    + by apply compute_portfolio_inv in H as [? _].
    + by apply compute_portfolio_raise in H as [-> _].
  - split.
    + intros [rows H]. by apply compute_portfolio_inv in H as [? _].
    + intros H. eexists. by apply compute_portfolio_ok.
Qed.

Example compute_without_symbol :
  compute_portfolio Sample.offline Sample.parse_digits
    (DataFrame_of_records [Sample.holding "ACME" (CNum 2) (CNum 10);
                           {[ "qty" := CNum 1; "buy_price" := CNum 5 ]}])
  = Raise AttributeError.
Proof. vm_compute. reflexivity. Qed.

(** X9. The table has one row per record, in the order of the records;
    the row of a record carries its symbol, and the price and the one-day
    return that the fetcher gives for its normalised symbol, the price
    rounded to two decimals and the return as fetched; and every row is
    left unchanged by another rounding to two decimals. *)
Theorem compute_portfolio_join (src : PriceSource) (parse_numeric : string → option Q)
    (df : DataFrame) (rows : list Row) :
  compute_portfolio src parse_numeric df = Ok rows →
  length rows = length (records df) ∧
  ∀ i r, records df !! i = Some r →
    ∃ row price ret,
      rows !! i = Some row ∧
      symbol row = symbol_of r ∧
      symbol_norm row = normalize_symbol (symbol_of r) ∧
      fetch_yfinance_price src (symbol_norm row) = Ok (price, ret) ∧
      current_price row = fround2 (default NaN price) ∧
      one_d_return_pct row = default NaN ret ∧
      round_row row = row.
Proof.
  intros (_ & _ & ->)%compute_portfolio_inv. split.
  { unfold table. by rewrite !length_fmap. }
  intros i r Hr.
  destruct (dicts_lookup src df r) as [Hp Hd]; [by eapply list_elem_of_lookup_2|].
  pose proof (fetch_yfinance_price_ok src (normalize_symbol (symbol_of r))) as Hf.
  destruct (fetched src (normalize_symbol (symbol_of r))) as [price ret] eqn:Hfetched.
  destruct (fetch_yfinance_price_shape _ _ _ _ Hf) as (_ & _ & Hround).
  eexists _, price, ret. split; [by apply table_lookup|].
  split_and!.
  - done.
  - done.
  - exact Hf.
  - cbn [round_row row_of current_price]. by rewrite Hp.
  - cbn [round_row row_of one_d_return_pct]. rewrite Hd. cbn [snd].
    destruct ret as [v|]; [|done]. cbn in *. congruence.
  - apply round_row_idemp.
Qed.

Lemma compute_portfolio_join_witness :
  ∃ rows,
    compute_portfolio (Sample.quotes [("ACME.NS", (Some (Fin 102), Some (Fin 100)))])
      Sample.parse_digits
      (DataFrame_of_records [Sample.holding " acme " (CNum 2) (CNum 10);
                             Sample.holding "ACME" (CNum 1) (CNum 50)]) = Ok rows ∧
    (length rows
       = length (records (DataFrame_of_records
                            [Sample.holding " acme " (CNum 2) (CNum 10);
                             Sample.holding "ACME" (CNum 1) (CNum 50)])) ∧
     ∀ i r,
       records (DataFrame_of_records [Sample.holding " acme " (CNum 2) (CNum 10);
                                      Sample.holding "ACME" (CNum 1) (CNum 50)]) !! i
         = Some r →
       ∃ row price ret,
         rows !! i = Some row ∧
         symbol row = symbol_of r ∧
         symbol_norm row = normalize_symbol (symbol_of r) ∧
         fetch_yfinance_price
           (Sample.quotes [("ACME.NS", (Some (Fin 102), Some (Fin 100)))])
           (symbol_norm row) = Ok (price, ret) ∧
         current_price row = fround2 (default NaN price) ∧
         one_d_return_pct row = default NaN ret ∧
         round_row row = row).
Proof.
  eexists. split; [vm_compute; reflexivity|].
  apply (compute_portfolio_join
           (Sample.quotes [("ACME.NS", (Some (Fin 102), Some (Fin 100)))])
           Sample.parse_digits
           (DataFrame_of_records [Sample.holding " acme " (CNum 2) (CNum 10);
                                  Sample.holding "ACME" (CNum 1) (CNum 50)])).
  vm_compute. reflexivity.
Defined.

Lemma row_without_price parse_numeric price_map ret_map r :
  map_dict price_map (normalize_symbol (symbol_of r)) = NaN →
  current_price (round_row (row_of parse_numeric price_map ret_map r)) = NaN ∧
  current_value (round_row (row_of parse_numeric price_map ret_map r)) = NaN ∧
  profit_loss (round_row (row_of parse_numeric price_map ret_map r)) = NaN ∧
  return_pct (round_row (row_of parse_numeric price_map ret_map r)) = NaN ∧
  (∃ q, qty (round_row (row_of parse_numeric price_map ret_map r)) = Fin q) ∧
  (∃ b, buy_price (round_row (row_of parse_numeric price_map ret_map r)) = Fin b) ∧
  (∃ v, invested (round_row (row_of parse_numeric price_map ret_map r)) = Fin v).
Proof.
  intros Hp.
  cbn [round_row row_of current_price current_value profit_loss return_pct
       qty buy_price invested].
  rewrite Hp.
  destruct (fillna0_to_numeric_fin parse_numeric (at_col "qty" r)) as [q ->].
  destruct (fillna0_to_numeric_fin parse_numeric (at_col "buy_price" r)) as [b ->].
  cbn. split_and!; eauto. by destruct (truthy _).
Qed.

(** X10. A holding for which the fetcher has no price keeps its row: the
    quantity, the buy price and the invested amount are numbers as usual,
    while the current price, the one-day return, the current value, the
    profit or loss and the return are all missing. *)
Theorem compute_portfolio_no_price (src : PriceSource) (parse_numeric : string → option Q)
    (df : DataFrame) (rows : list Row) (i : nat) (r : gmap string cell)
    (ret : option float) :
  compute_portfolio src parse_numeric df = Ok rows →
  records df !! i = Some r →
  fetch_yfinance_price src (normalize_symbol (symbol_of r)) = Ok (None, ret) →
  ∃ row, rows !! i = Some row ∧
         current_price row = NaN ∧ one_d_return_pct row = NaN ∧
         current_value row = NaN ∧ profit_loss row = NaN ∧ return_pct row = NaN ∧
         (∃ q, qty row = Fin q) ∧ (∃ b, buy_price row = Fin b) ∧
         (∃ v, invested row = Fin v).
Proof.
  intros (_ & _ & ->)%compute_portfolio_inv Hr Hf.
  destruct (dicts_lookup src df r) as [Hp Hd]; [by eapply list_elem_of_lookup_2|].
  assert (ret = None) as ->.
  { destruct (fetch_yfinance_price_shape _ _ _ _ Hf) as (_ & Hsome & _).
    destruct ret; [|done]. by destruct Hsome. }
  assert (fetched src (normalize_symbol (symbol_of r)) = (None, None)) as Hfetched.
  { unfold fetched. by rewrite Hf. }
  rewrite Hfetched in Hp, Hd. cbn [fst snd default from_option] in Hp, Hd.
  eexists. split; [by apply table_lookup|].
  destruct (row_without_price parse_numeric (dicts src df).1 (dicts src df).2 r Hp)
    as (? & ? & ? & ? & ? & ? & ?).
  split_and!; try done.
  cbn [round_row row_of one_d_return_pct]. by rewrite Hd.
Qed.

Lemma compute_portfolio_no_price_witness :
  ∃ rows,
    compute_portfolio Sample.offline Sample.parse_digits
      (DataFrame_of_records [Sample.holding "ACME" (CNum 2) (CNum 10)]) = Ok rows ∧
    ∃ row, rows !! 0%nat = Some row ∧
           current_price row = NaN ∧ one_d_return_pct row = NaN ∧
           current_value row = NaN ∧ profit_loss row = NaN ∧ return_pct row = NaN ∧
           (∃ q, qty row = Fin q) ∧ (∃ b, buy_price row = Fin b) ∧
           (∃ v, invested row = Fin v).
Proof.
  eexists. split; [vm_compute; reflexivity|].
  apply (compute_portfolio_no_price Sample.offline Sample.parse_digits
           (DataFrame_of_records [Sample.holding "ACME" (CNum 2) (CNum 10)])
           _ 0 (Sample.holding "ACME" (CNum 2) (CNum 10)) None);
    vm_compute; reflexivity.
Defined.

(** ** One cycle *)



(** The table with the fact about its current_price column. *)
Lemma compute_portfolio_frame_ok src parse_numeric df :
  Forall has_symbol (records df) →
  compute_portfolio_frame src parse_numeric df
    = Ok (round_row <$> table src parse_numeric df, price_column_of_None (dicts src df).1).
Proof.
  intros Hsym. unfold compute_portfolio_frame.
  rewrite (mapM_result_ok _ (λ r, normalize_symbol (symbol_of r))); last first.
  { intros r Hr. apply apply_normalize_symbol. by eapply Forall_forall in Hsym. }
  cbn [mbind result_bind]. unfold fetch_live_prices. rewrite fetch_loop_ok.
  cbn [mbind result_bind]. rewrite zip_fmap_diag.
  rewrite (mapM_result_ok _ (λ p, row_of parse_numeric (dicts src df).1 (dicts src df).2 p.1));
    last first.
  { intros [r s] (r' & [= -> ->] & _)%list_elem_of_fmap. apply compute_row_ok. }
  cbn [mbind result_bind mret result_ret]. unfold table.
  f_equal. f_equal. f_equal.
  rewrite <- list_fmap_compose. reflexivity.
Qed.

Lemma compute_portfolio_frame_raise src parse_numeric df e :
  compute_portfolio_frame src parse_numeric df = Raise e →
  e = AttributeError ∧ ¬ Forall has_symbol (records df).
Proof.
  intros H.
  assert (¬ Forall has_symbol (records df)) as Hn.
  { intros Hsym. by rewrite compute_portfolio_frame_ok in H. }
  split; [|done]. revert H. unfold compute_portfolio_frame.
  destruct (mapM _ (records df)) as [syms|e'] eqn:Hm; cbn.
  - by apply normalized_has_symbol in Hm.
  - intros [= ->]. apply mapM_result_raise in Hm as (r & _ & Hr).
    unfold apply_normalize in Hr. destruct (at_col "symbol" r); by simplify_eq.
Qed.

Lemma compute_portfolio_frame_inv src parse_numeric df rows flag :
  compute_portfolio_frame src parse_numeric df = Ok (rows, flag) →
  Forall has_symbol (records df) ∧
  rows = round_row <$> table src parse_numeric df ∧
  flag = price_column_of_None (dicts src df).1.
Proof.
  intros H.
  assert (Forall has_symbol (records df)) as Hsym.
  { revert H. unfold compute_portfolio_frame.
    destruct (mapM _ (records df)) as [syms|e'] eqn:Hm; cbn; [|done].
    intros _. by apply normalized_has_symbol in Hm. }
  rewrite compute_portfolio_frame_ok in H by done. by injection H as <- <-.
Qed.

(** The table of the frame is the table [compute_portfolio] returns. *)
Lemma compute_portfolio_frame_table src parse_numeric df :
  fst <$> compute_portfolio_frame src parse_numeric df
    = compute_portfolio src parse_numeric df.
Proof.
  destruct (compute_portfolio src parse_numeric df) as [rows|e] eqn:H.
  - apply compute_portfolio_inv in H as (Hsym & _ & ->).
    by rewrite compute_portfolio_frame_ok.
  - apply compute_portfolio_raise in H as [-> Hn].
    destruct (compute_portfolio_frame src parse_numeric df) as [[rows flag]|e] eqn:H.
    + by apply compute_portfolio_frame_inv in H as [? _].
    + by apply compute_portfolio_frame_raise in H as [-> _].
Qed.






Lemma cycle_inv src parse_numeric fails bulb df r :
  cycle src parse_numeric fails bulb df = Ok r →
  Forall has_symbol (records df) ∧ ∃ change_pct, r = set_bulb_color fails bulb change_pct.
Proof.
  unfold cycle, print_summary_call.
  destruct (compute_portfolio_frame src parse_numeric df) as [[rows flag]|e] eqn:H;
    cbn [mbind result_bind]; [|done].
  apply compute_portfolio_frame_inv in H as (Hsym & _ & _).
  destruct (print_holdings flag rows); cbn; [|done].
  intros [= <-]. eauto.
Qed.




(** With a price for one holding at least, the same outage of the other
    symbols lets the cycle through. *)
Example cycle_one_price :
  cycle (Sample.quotes [("ACME.NS", (Some (Fin 102), Some (Fin 100)))]) Sample.parse_digits
    Sample.reliable Sample.bulb_off
    (DataFrame_of_records [Sample.holding "GONE" (CNum 1) (CNum 50);
                           Sample.holding "ACME" (CNum 2) (CNum 10)])
  = Ok ({| is_on := true; shines := Colour 0 255 0; calls := [turn_on; set_colour 0 255 0] |},
        [Bulb_GREEN_Gain]).
Proof. vm_compute. reflexivity. Qed.

(** ** The indicator, continued *)

Lemma colour_branch_cases v :
  colour_branch v = (set_colour 0 255 0, Bulb_GREEN_Gain) ∨
  colour_branch v = (set_colour 255 0 0, Bulb_RED_Loss) ∨
  colour_branch v = (set_white, Bulb_WHITE_Neutral).
Proof.
  unfold colour_branch. destruct (fgt _ _); [by left|].
  destruct (flt _ _); [right; by left | right; by right].
Qed.

(** The calls one indicator step adds to the record of the device. *)
Lemma set_bulb_color_added fails bulb change_pct :
  ∃ cs,
    calls (set_bulb_color fails bulb change_pct).1 = calls bulb ++ cs ∧
    (cs = [] ∧ change_pct = None ∧ (set_bulb_color fails bulb change_pct).2 = [] ∨
     change_pct ≠ None ∧ length (set_bulb_color fails bulb change_pct).2 = 1%nat ∧
     (cs = [turn_on] ∧ is_Some (fails bulb turn_on) ∧
        is_on (set_bulb_color fails bulb change_pct).1 = is_on bulb ∧
        shines (set_bulb_color fails bulb change_pct).1 = shines bulb
      ∨ cs = [turn_on; set_colour 0 255 0] ∨ cs = [turn_on; set_colour 255 0 0]
      ∨ cs = [turn_on; set_white])).
Proof.
  destruct change_pct as [v|]; cbn.
  - unfold call. destruct (fails bulb turn_on) as [e|] eqn:E1.
    + exists [turn_on]. split; [done|]. right. split; [done|]. split; [done|]. left. eauto.
    + destruct (colour_branch_cases v) as [-> | [-> | ->]];
        match goal with
        | |- context [fails ?d ?c] => destruct (fails d c)
        end;
        eexists; (split; [cbn; by rewrite <- app_assoc|]);
        right; (split; [done|]); (split; [done|]); right; eauto.
  - exists []. split; [by rewrite app_nil_r|]. by left.
Qed.

(** X12. One indicator step makes at most two calls to the device: none
    when there is no value, otherwise [turn_on] first and then, exactly
    when [turn_on] did not fail, the one colour call that the value
    selects; it never calls [turn_off], and it prints one line whenever
    there is a value.  When [turn_on] fails it is the only call: power and
    light are as they were, and the line printed is the failure.  When it
    succeeds the bulb is on; if the colour call then fails, the light is
    as it was and the line printed is the failure; otherwise the light is
    the one called for and the line is the one of its colour. *)
Theorem set_bulb_color_calls
    (fails : BulbDevice → bulb_call → option exn) (bulb : BulbDevice)
    (change_pct : option float) :
  ∃ cs,
    calls (set_bulb_color fails bulb change_pct).1 = calls bulb ++ cs ∧
    (cs = [] ↔ change_pct = None) ∧
    (turn_off ∉ cs) ∧
    (cs = [] ∨ cs = [turn_on] ∨ cs = [turn_on; set_colour 0 255 0]
     ∨ cs = [turn_on; set_colour 255 0 0] ∨ cs = [turn_on; set_white]) ∧
    length (set_bulb_color fails bulb change_pct).2
      = match change_pct with Some _ => 1%nat | None => 0%nat end ∧
    (cs = [turn_on] →
       is_on (set_bulb_color fails bulb change_pct).1 = is_on bulb ∧
       shines (set_bulb_color fails bulb change_pct).1 = shines bulb) ∧
    (cs = [turn_on] ↔ is_Some change_pct ∧ is_Some (fails bulb turn_on)) ∧
    (∀ v e, change_pct = Some v → fails bulb turn_on = Some e →
       set_bulb_color fails bulb change_pct
         = (logged turn_on bulb, [Bulb_control_failed e])) ∧
    (∀ v, change_pct = Some v → fails bulb turn_on = None →
       cs = [turn_on; (colour_branch v).1] ∧
       is_on (set_bulb_color fails bulb change_pct).1 = true ∧
       match fails (effect turn_on (logged turn_on bulb)) (colour_branch v).1 with
       | Some e =>
           shines (set_bulb_color fails bulb change_pct).1 = shines bulb ∧
           (set_bulb_color fails bulb change_pct).2 = [Bulb_control_failed e]
       | None =>
           shines (set_bulb_color fails bulb change_pct).1
             = shines (effect (colour_branch v).1 bulb) ∧
           (set_bulb_color fails bulb change_pct).2 = [(colour_branch v).2]
       end).
Proof.
  destruct change_pct as [v|].
  - unfold set_bulb_color, call. destruct (fails bulb turn_on) as [e|] eqn:E1.
    + exists [turn_on]. cbn [fst snd]. split_and!; try done.
      * intros Hin. apply elem_of_cons in Hin as [Hin|Hin]; [discriminate|].
        by apply elem_of_nil in Hin.
      * eauto.
      * by intros v' e' _ [= <-].
    + exists [turn_on; (colour_branch v).1].
      destruct (colour_branch_cases v) as [Hc | [Hc | Hc]]; rewrite Hc; cbn [fst snd];
        match goal with
        | |- context [fails (effect turn_on ?d) ?c] =>
            destruct (fails (effect turn_on d) c) as [e|] eqn:E2
        end;
        (split_and!;
         [ cbn; by rewrite <- app_assoc
         | done
         | intros Hin; repeat (apply elem_of_cons in Hin as [Hin|Hin]; [discriminate|]);
           by apply elem_of_nil in Hin
         | eauto 6
         | done
         | done
         | split; [done | by intros [_ [? ?]]]
         | by intros v' e' _ [=]
         | intros v' [= <-] _; rewrite Hc; cbn [fst snd]; rewrite E2; by cbn ]).
  - exists []. split_and!; try done.
    + by rewrite app_nil_r.
    + by intros ?%elem_of_nil.
    + by left.
    + split; [done | by intros [[? ?] _]].
Qed.

(** X13. On a device whose calls succeed, the step leaves the bulb switched
    on, and what the bulb shows depends on the value alone: not on what it
    showed before, so that repeating the step changes nothing. *)
Theorem set_bulb_color_overrides
    (fails : BulbDevice → bulb_call → option exn) (bulb bulb' : BulbDevice) (v : float) :
  (∀ d c, fails d c = None) →
  is_on (set_bulb_color fails bulb (Some v)).1 = true ∧
  shines (set_bulb_color fails bulb (Some v)).1
    = shines (set_bulb_color fails bulb' (Some v)).1 ∧
  shines (set_bulb_color fails (set_bulb_color fails bulb (Some v)).1 (Some v)).1
    = shines (set_bulb_color fails bulb (Some v)).1 ∧
  shines (set_bulb_color fails bulb (Some v)).1
    ∈ [Colour 0 255 0; Colour 255 0 0; White].
Proof.
  intros Hok.
  assert (∀ b, is_on (set_bulb_color fails b (Some v)).1 = true ∧
               shines (set_bulb_color fails b (Some v)).1
                 = match (colour_branch v).1 with
                   | set_colour r g b => Colour r g b
                   | _ => White
                   end) as H.
  { intros b. unfold set_bulb_color, call. rewrite Hok.
    destruct (colour_branch_cases v) as [-> | [-> | ->]]; by rewrite Hok. }
  split_and!.
  - apply H.
  - by rewrite !(proj2 (H _)).
  - by rewrite !(proj2 (H _)).
  - rewrite (proj2 (H _)).
    destruct (colour_branch_cases v) as [-> | [-> | ->]]; cbn;
      repeat first [by left | right].
Qed.

Lemma set_bulb_color_overrides_witness :
  is_on (set_bulb_color Sample.reliable Sample.bulb_off (Some (Fin 1))).1 = true ∧
  shines (set_bulb_color Sample.reliable Sample.bulb_off (Some (Fin 1))).1
    = shines (set_bulb_color Sample.reliable
                {| is_on := true; shines := Colour 255 0 0; calls := [] |} (Some (Fin 1))).1 ∧
  shines (set_bulb_color Sample.reliable
            (set_bulb_color Sample.reliable Sample.bulb_off (Some (Fin 1))).1 (Some (Fin 1))).1
    = shines (set_bulb_color Sample.reliable Sample.bulb_off (Some (Fin 1))).1 ∧
  shines (set_bulb_color Sample.reliable Sample.bulb_off (Some (Fin 1))).1
    ∈ [Colour 0 255 0; Colour 255 0 0; White].
Proof.
  apply (set_bulb_color_overrides Sample.reliable Sample.bulb_off
           {| is_on := true; shines := Colour 255 0 0; calls := [] |} (Fin 1)).
  reflexivity.
Defined.

(** ** The loader, continued *)

(** X14. However loading ends, it ends in one of four ways: a path whose
    suffix is not .json (in any case of the letters) is refused without
    regard to the file; an exception of the read step comes out wrapped in
    the read error, never as it is; a frame without the three keys is
    refused; and otherwise the frame is returned as it was read, with any
    other column it has. *)
Theorem load_portfolio_outcomes (read_frame : Path → result DataFrame) (path : Path) :
  (Str.str (Str.lower (Str.chars (suffix path))) ≠ ".json" →
     load_portfolio read_frame path = Raise ValueError_OnlyJson) ∧
  (∀ e, load_portfolio read_frame path = Raise e →
     e = ValueError_OnlyJson
       ∧ Str.str (Str.lower (Str.chars (suffix path))) ≠ ".json" ∨
     (∃ cause, e = ValueError_FailedToRead cause ∧ read_frame path = Raise cause) ∨
     e = ValueError_MustContainKeys
       ∧ ∃ df, read_frame path = Ok df ∧ ¬ required ⊆ columns df) ∧
  (∀ df, load_portfolio read_frame path = Ok df →
     Str.str (Str.lower (Str.chars (suffix path))) = ".json" ∧
     read_frame path = Ok df ∧ required ⊆ columns df).
Proof.
  destruct (decide (Str.str (Str.lower (Str.chars (suffix path))) = ".json")) as [Hj|Hn].
  - rewrite load_portfolio_json by done. split_and!; [done| |].
    + intros e. destruct (read_frame path) as [df|cause]; [|intros [= <-]; eauto].
      case_bool_decide; [done|]. intros [= <-]. eauto 6.
    + intros df. destruct (read_frame path) as [df'|cause]; [|done].
      case_bool_decide; [|done]. by intros [= <-].
  - assert (load_portfolio read_frame path = Raise ValueError_OnlyJson) as ->.
    { unfold load_portfolio. by rewrite (proj2 (String.eqb_neq _ _) Hn). }
    split_and!; [done | | done]. intros e [= <-]. by left.
Qed.

Example load_upper_case_suffix :
  load_portfolio
    (λ _, Ok (DataFrame_of_records [Sample.holding "ACME" (CNum 2) (CNum 10)]))
    {| path_name := "PORTFOLIO.JSON"; suffix := ".JSON" |}
  = Ok (DataFrame_of_records [Sample.holding "ACME" (CNum 2) (CNum 10)]).
Proof. vm_compute. reflexivity. Qed.

(** ** The program *)

Lemma set_bulb_color_no_turn_off fails bulb change_pct :
  ∃ cs, calls (set_bulb_color fails bulb change_pct).1 = calls bulb ++ cs ∧ (turn_off ∉ cs).
Proof.
  destruct (set_bulb_color_added fails bulb change_pct)
    as (cs & Hcalls & [(-> & _) | (_ & _ & Hcs)]).
  - exists []. split; [done|]. by intros ?%elem_of_nil.
  - exists cs. split; [done|].
    destruct Hcs as [(-> & _) | [-> | [-> | ->]]];
      intros Hin; repeat (apply elem_of_cons in Hin as [Hin|Hin]; [discriminate|]);
      by apply elem_of_nil in Hin.
Qed.

Lemma main_loop_calls w df n k bulb :
  ∃ cs, calls (main_loop w n k bulb df).1 = calls bulb ++ cs ∧ (turn_off ∉ cs).
Proof.
  revert k bulb. induction n as [|n IH]; intros k bulb; cbn.
  - exists []. split; [by rewrite app_nil_r | by intros ?%elem_of_nil].
  - destruct (cycle _ _ _ bulb df) as [[bulb' msgs]|e] eqn:Hc; cbn.
    + apply cycle_inv in Hc as [_ [x Hx]].
      destruct (set_bulb_color_no_turn_off (device_fails w) bulb x) as (cs1 & H1 & Hn1).
      rewrite <- Hx in H1. cbn in H1.
      destruct (IH (S k) bulb') as (cs2 & H2 & Hn2).
      exists (cs1 ++ cs2). split; [by rewrite H2, H1, app_assoc|].
      by intros [?|?]%elem_of_app.
    + exists []. split; [by rewrite app_nil_r | by intros ?%elem_of_nil].
Qed.





(** The sample run: two cycles with a quote for ACME, which show green,
    then the provider goes down and the third cycle ends the run with
    TypeError, the bulb left on and green. *)
Example main_provider_goes_down :
  main Sample.world 2
    = Exited {| is_on := false; shines := Colour 0 255 0;
                calls := [turn_on; set_colour 0 255 0; turn_on; set_colour 0 255 0;
                          turn_off] |} ∧
  main Sample.world 3
    = Uncaught TypeError
        {| is_on := true; shines := Colour 0 255 0;
           calls := [turn_on; set_colour 0 255 0; turn_on; set_colour 0 255 0] |}.
Proof. split; vm_compute; reflexivity. Qed.



(** X17. However a run ends, the program switches the bulb off at most
    once, and only as its very last call: every call it makes before is a
    [turn_on] or a colour call.  A run that ends with an exception out of
    loading or out of a cycle makes no [turn_off] at all, and a run that
    stops at a missing setting or a missing file never reaches the
    bulb. *)
Theorem script_turn_off_last (w : World) (n : nat) :
  match script w n with
  | Exited bulb =>
      ∃ cs, calls bulb = calls (device w) ++ cs ++ [turn_off] ∧ (turn_off ∉ cs) ∧
            is_on bulb = false
  | Uncaught e bulb =>
      ∃ cs, (turn_off ∉ cs) ∧
            (calls bulb = calls (device w) ++ cs ∨
             calls bulb = calls (device w) ++ cs ++ [turn_off] ∧
             ∃ d, device_fails w d turn_off = Some e)
  | SystemExit_MissingEnv => env_ok (environ w) = false
  | SystemExit_FileNotFound => path_exists w PORTFOLIO_FILE = false
  end.
Proof.
  unfold script. destruct (env_ok (environ w)) eqn:Henv; [|done]. cbn [negb].
  unfold main. destruct (path_exists w PORTFOLIO_FILE); [|done]. cbn [negb].
  destruct (init_bulb_fails w) as [e|].
  { exists []. split; [by intros ?%elem_of_nil|]. left. by rewrite app_nil_r. }
  destruct (load_portfolio _ _) as [df|e].
  2: { exists []. split; [by intros ?%elem_of_nil|]. left. by rewrite app_nil_r. }
  destruct (main_loop_calls w df n 0 (device w)) as (cs & Hcs & Hn).
  destruct (main_loop w n 0 (device w) df) as [bulb [e|]] eqn:Hloop; cbn in Hcs.
  { exists cs. split; [done|]. by left. }
  unfold call. destruct (device_fails w bulb turn_off) as [e|] eqn:Hoff.
  - exists cs. split; [done|]. right. cbn. rewrite Hcs, app_assoc. eauto.
  - exists cs. cbn. by rewrite Hcs, app_assoc.
Qed.

(** ** The price fetcher: a single close *)

(** X19. When the fast quote is incomplete and the history holds a single
    close, that close is the last price; the previous close is the one of
    the fast quote when it has a non-zero one, and otherwise the one of
    the detailed quote, whose failure loses the price as well. *)
Theorem fetch_single_close (src : PriceSource) (sym : string)
    (q : option float * option float) (last : float) :
  fast_info src sym = Ok q → complete q = false →
  history_close src sym = Ok [last] →
  (otruthy q.2 = true →
     fetch_yfinance_price src sym = quote_result (Some last) q.2) ∧
  (otruthy q.2 = false →
     (∀ prev, info_previousClose src sym = Ok prev →
        fetch_yfinance_price src sym = quote_result (Some last) prev) ∧
     (∀ e, info_previousClose src sym = Raise e →
        fetch_yfinance_price src sym = Ok (None, None))).
Proof.
  destruct q as [l p]. intros Hq Hc Hh.
  assert (resolve_quote src sym
          = (prev ← (if negb (otruthy p) || oeq0 p
                     then info_previousClose src sym else mret p);
             mret (Some last, prev))) as Hr.
  { unfold resolve_quote. rewrite Hq. cbn.
    rewrite complete_condition, Hc. cbn. by rewrite Hh. }
  cbn [snd]. split.
  - intros Hp. apply fetch_of_resolved. rewrite Hr.
    destruct p as [p|]; [|done]. cbn [otruthy oeq0] in *.
    by rewrite Hp, (truthy_not_zero p Hp).
  - intros Hp. split.
    + intros prev Hi. apply fetch_of_resolved. by rewrite Hr, Hp, Hi.
    + intros e Hi. unfold fetch_yfinance_price. by rewrite Hr, Hp, Hi.
Qed.

Lemma fetch_single_close_witness :
  (otruthy (Some (Fin 50), None).2 = true →
     fetch_yfinance_price
       {| fast_info _ := Ok (Some (Fin 50), None);
          history_close _ := Ok [Fin 51];
          info_previousClose _ := Ok (Some (Fin 50)) |} "ACME.NS"
     = quote_result (Some (Fin 51)) (Some (Fin 50), None).2) ∧
  (otruthy (Some (Fin 50), None).2 = false →
     (∀ prev, Ok (Some (Fin 50)) = Ok prev →
        fetch_yfinance_price
          {| fast_info _ := Ok (Some (Fin 50), None);
             history_close _ := Ok [Fin 51];
             info_previousClose _ := Ok (Some (Fin 50)) |} "ACME.NS"
        = quote_result (Some (Fin 51)) prev) ∧
     (∀ e, Ok (Some (Fin 50)) = Raise e →
        fetch_yfinance_price
          {| fast_info _ := Ok (Some (Fin 50), None);
             history_close _ := Ok [Fin 51];
             info_previousClose _ := Ok (Some (Fin 50)) |} "ACME.NS"
        = Ok (None, None))).
Proof.
  apply (fetch_single_close
           {| fast_info _ := Ok (Some (Fin 50), None);
              history_close _ := Ok [Fin 51];
              info_previousClose _ := Ok (Some (Fin 50)) |}
           "ACME.NS" (Some (Fin 50), None) (Fin 51)); reflexivity.
Defined.
